(** * boxdetect: the configuration engine [PipelinesConfig]

    A shallow embedding of [src/boxdetect/config.py] and the properties of
    its parameter store, auto-calibrator and persistence adapter.

    - Python objects are values of the inductive type [value]; Python floats
      and NumPy's float64 are the kernel's binary64 floats, NumPy's int64 is
      an integer with its wrap-around written out.
    - The instance dictionary [self.__dict__] is a [gmap string value].
    - Methods are computations in a state-and-exception monad over a [world]:
      the instance dictionary, the file system and the standard output.  A
      call [self.name(...)] looks the name up in the instance dictionary
      before the class.
    - The collaborators outside the repository (PyYAML's [dump]/[load] and
      scikit-learn's [DBSCAN.fit_predict]) are parameters of the model. *)

From Stdlib Require Import ZArith PrimFloat FloatOps SpecFloat FloatAxioms.
From stdpp Require Import gmap strings list.

Set Warnings "-inexact-float,-register-all".
Set Default Proof Using "Type".

(** ** Python values and exceptions *)

Inductive value : Type :=
  | VNone
  | VBool (b : bool)
  | VInt (z : Z)
  | VFloat (f : float)
  | VStr (s : string)
  | VTuple (l : list value)
  | VList (l : list value)
  | VInt64 (z : Z)        (* numpy.int64 *)
  | VFloat64 (f : float).  (* numpy.float64 *)

Inductive exn : Type :=
  | AttributeError
  | IndexError
  | ValueError
  | TypeError
  | OverflowError
  | OSError
  | YAMLError
  | Unmodelled.  (* no exception of Python: the computation has left the
                    part of NumPy that is modelled here *)

(** A computation that either raises or returns. *)
Definition res (A : Type) : Type := exn + A.

Abbreviation ok := (@inr exn _).
Abbreviation throw := (@inl exn _).

Definition res_bind {A B} (r : res A) (k : A -> res B) : res B :=
  match r with
  | inl e => inl e
  | inr a => k a
  end.

Notation "'let?' x ':=' r 'in' k" := (res_bind r (fun x => k))
  (at level 10, x name, r at level 100, k at level 200).

Fixpoint res_map {A B} (f : A -> res B) (l : list A) : res (list B) :=
  match l with
  | [] => ok []
  | a :: l' =>
      let? b := f a in
      let? bs := res_map f l' in
      ok (b :: bs)
  end.

(** [type(x) is list] *)
Definition is_list (x : value) : bool :=
  match x with
  | VList _ => true
  | _ => false
  end.

(** [len(x)] *)
Definition py_len (x : value) : res Z :=
  match x with
  | VList l | VTuple l => ok (Z.of_nat (length l))
  | VStr s => ok (Z.of_nat (String.length s))
  | _ => throw TypeError
  end.

(** The integer carried by an [int] object. *)
Definition as_int (x : value) : res Z :=
  match x with
  | VInt z | VInt64 z => ok z
  | VBool b => ok (if b then 1 else 0)%Z
  | _ => throw TypeError
  end.

(** [xs[i]] on a Python sequence of length [length xs]; a negative index
    counts from the end. *)
Definition seq_getitem {A} (xs : list A) (i : Z) : res A :=
  let j := (if i <? 0 then i + Z.of_nat (length xs) else i)%Z in
  if (j <? 0)%Z then throw IndexError
  else match xs !! Z.to_nat j with
       | Some a => ok a
       | None => throw IndexError
       end.

(** [x[i]] *)
Definition py_getitem (x : value) (i : Z) : res value :=
  match x with
  | VList l | VTuple l => seq_getitem l i
  | VStr s =>
      let? c := seq_getitem (String.list_ascii_of_string s) i in
      ok (VStr (String c EmptyString))
  | VInt64 _ | VFloat64 _ => throw IndexError
  | _ => throw TypeError
  end.

(** [float(z)] for an integer, rounded to the nearest binary64. *)
Definition float_of_Z (z : Z) : float :=
  SF2Prim (binary_normalize prec emax z 0 false).

(** ** NumPy's 64-bit integers

    A [numpy.int64] is held as the integer it stands for, between [-2^63]
    and [2^63 - 1]; its arithmetic wraps around. *)
Definition in_int64 (z : Z) : bool := (- 2 ^ 63 <=? z)%Z && (z <? 2 ^ 63)%Z.

Definition wrap64 (z : Z) : Z := ((z + 2 ^ 63) mod 2 ^ 64 - 2 ^ 63)%Z.

(** [x + m] and [x - m] for a [numpy.int64] [x] and a Python [int] [m].
    When [m] fits 64 bits the result is a [numpy.int64], wrapped around.
    For any other [m] NumPy leaves the integers (the result is a float or
    a Python object, by rules of its version), and so does the model. *)
Definition np_add (x m : Z) : res Z :=
  if in_int64 m then ok (wrap64 (x + m)) else throw Unmodelled.

Definition np_sub (x m : Z) : res Z :=
  if in_int64 m then ok (wrap64 (x - m)) else throw Unmodelled.

(** [x * k] for an object [x] and an [int] literal [k]. *)
Definition py_mul_int (x : value) (k : Z) : res value :=
  match x with
  | VInt z => ok (VInt (z * k))
  | VBool b => ok (VInt ((if b then 1 else 0) * k))
  | VFloat f => ok (VFloat (f * float_of_Z k)%float)
  | VList l => ok (VList (mjoin (replicate (Z.to_nat k) l)))
  | VTuple l => ok (VTuple (mjoin (replicate (Z.to_nat k) l)))
  | VStr s => ok (VStr (String.concat EmptyString (replicate (Z.to_nat k) s)))
  | VInt64 z =>
      if in_int64 k then ok (VInt64 (wrap64 (z * k))) else throw Unmodelled
  | VFloat64 f =>
      if in_int64 k then ok (VFloat64 (f * float_of_Z k)%float)
      else throw Unmodelled
  | VNone => throw TypeError
  end.

(** [range(a, b)] *)
Definition py_range (a b : Z) : list Z := seqZ a (b - a).

(** [min(xs)] and [max(xs)] over a sequence of integers; both raise
    [ValueError] on an empty sequence. *)
Definition py_min (xs : list Z) : res Z :=
  match xs with
  | [] => throw ValueError
  | x :: xs' => ok (foldl (fun m y => if (y <? m)%Z then y else m) x xs')
  end.

Definition py_max (xs : list Z) : res Z :=
  match xs with
  | [] => throw ValueError
  | x :: xs' => ok (foldl (fun m y => if (m <? y)%Z then y else m) x xs')
  end.

(** ** Floats *)

(** The integer part of a float under a rounding [rnd] of the quotient
    of the signed mantissa by a power of two. *)
Definition SFint (rnd : Z -> Z -> Z) (x : spec_float) : res Z :=
  match x with
  | S754_zero _ => ok 0%Z
  | S754_finite s m e =>
      ok (if (0 <=? e)%Z then cond_Zopp s (Z.pos m) * 2 ^ e
          else rnd (cond_Zopp s (Z.pos m)) (2 ^ (- e)))%Z
  | S754_infinity _ => throw OverflowError
  | S754_nan => throw ValueError
  end.

(** [int(f)]: truncation toward zero. *)
Definition py_int (f : float) : res Z := SFint Z.quot (Prim2SF f).


(** [sorted((a, b))] on two floats: Python's sort reverses a strictly
    descending run and leaves any other input in place. *)
Definition py_sorted2 (a b : float) : list float :=
  if (b <? a)%float then [b; a] else [a; b].

(** ** The [zip] iterator

    A [zip] object holds one list iterator per argument, and a list
    iterator holds the list object it was made from.  The model has no
    operation that changes a list object in place, so a list iterator is
    held as the elements it has not yet yielded: what is stated of a [zip]
    object is about its consumption while the lists it was made from are
    as they were when it was made. *)
Definition zip_object : Type := list (list value).

(** [zip] applied to the unpacked [lists]. *)
Definition py_zip (lists : list (list value)) : zip_object := lists.

(** One round over the iterators, left to right; it stops at the first
    exhausted one, the earlier ones having advanced. *)
Fixpoint zip_advance (its : list (list value))
  : option (list value) * list (list value) :=
  match its with
  | [] => (Some [], [])
  | it :: rest =>
      match it with
      | [] => (None, its)
      | x :: it' =>
          let '(r, rest') := zip_advance rest in
          (cons x <$> r, it' :: rest')
      end
  end.

(** [next(z)]: [None] stands for [StopIteration]. *)
Definition zip_next (z : zip_object) : option (list value) * zip_object :=
  match z with
  | [] => (None, [])
  | _ => zip_advance z
  end.

Fixpoint iterate (fuel : nat) (z : zip_object)
  : list (list value) * zip_object :=
  match fuel with
  | O => ([], z)
  | S fuel' =>
      match zip_next z with
      | (None, z') => ([], z')
      | (Some t, z') =>
          let '(ts, z'') := iterate fuel' z' in
          (t :: ts, z'')
      end
  end.

(** [list(z)]: the tuples yielded until [StopIteration], and the iterator
    afterwards.  Every yielded tuple consumes one element of the first
    list iterator, which bounds the number of rounds. *)
Definition py_list (z : zip_object) : list (list value) * zip_object :=
  iterate (S (length (hd [] z))) z.

(** ** The parts of NumPy that [autoconfigure] uses

    The model follows the versions of NumPy before 1.24, which build an
    array of objects from rows of unequal shapes, on a platform whose
    default integer has 64 bits. *)

(** [np.asarray(box_sizes)] for a list of (height, width) rows of Python
    integers: an [int64] array of shape (n, 2) when every integer fits 64
    bits.  Other integers give an array of another type, which is not
    modelled. *)
Definition np_asarray (box_sizes : list (Z * Z)) : res (list (Z * Z)) :=
  if forallb (fun p => in_int64 p.1 && in_int64 p.2) box_sizes
  then ok box_sizes
  else throw Unmodelled.

(** The labels that [fit_predict] returns are an [int64] array. *)
Definition np_labels (clusters : list Z) : res (list Z) :=
  if forallb in_int64 clusters then ok clusters else throw Unmodelled.

(** [box_sizes[clusters == i]]: the rows whose label is [i]; the boolean
    mask must be as long as the array. *)
Definition np_select (box_sizes : list (Z * Z)) (clusters : list Z) (i : Z)
  : res (list (Z * Z)) :=
  if decide (length clusters = length box_sizes)
  then ok (fst <$> filter (fun p => p.2 = i) (zip box_sizes clusters))
  else throw IndexError.

(** [np.asarray(rows)[:, j].tolist()] for rows that each hold two pairs, a
    two-element list and a string: an object array of shape (n, 4).  With
    no row the array has one axis and the slice raises. *)
Definition np_column (rows : list (list value)) (j : Z) : res (list value) :=
  match rows with
  | [] => throw IndexError
  | _ => res_map (fun row => seq_getitem row j) rows
  end.

(** ** Values that PyYAML reads back

    A value is plain when it is built from Python's own types only.
    [yaml.dump] writes a NumPy scalar under a tag that names the function
    to rebuild it, and [FullLoader] refuses that tag. *)
Fixpoint plain (v : value) : bool :=
  match v with
  | VInt64 _ | VFloat64 _ => false
  | VTuple l | VList l => forallb plain l
  | _ => true
  end.

(** ** Stand-ins for the collaborators, used to run the model *)

(** A serializer whose file content is the mapping itself, and a loader
    that refuses a mapping with a value that is not plain. *)
Definition mapping_dump (d : gmap string value) : gmap string value := d.
Definition mapping_load (f : gmap string value) : res (list (string * value)) :=
  if forallb (fun kv => plain kv.2) (map_to_list f)
  then ok (map_to_list f)
  else throw YAMLError.

(** A clustering that returns fixed labels. *)
Definition fixed_labels (labels : list Z) (epsilon : value)
    (box_sizes : list (Z * Z)) : res (list Z) :=
  ok labels.

(** A clustering that puts every point in group 0. *)
Definition one_group (epsilon : value) (box_sizes : list (Z * Z))
  : res (list Z) :=
  ok (const 0%Z <$> box_sizes).

(** ** The class [PipelinesConfig] *)

Section PipelinesConfig.

(** The content of a file, and PyYAML's [dump] and [load] (with
    [FullLoader]) between mappings and files; [yaml_load] returns the
    items of the mapping in the order of the file. *)
Context {File : Type}.
Variable yaml_dump : gmap string value -> File.
Variable yaml_load : File -> res (list (string * value)).

(** [DBSCAN(eps, min_samples=1).fit_predict]: one label per point. *)
Variable fit_predict : value -> list (Z * Z) -> res (list Z).

Record world : Type := World {
  self_dict : gmap string value;  (* self.__dict__ *)
  files : gmap string File;       (* the file system, by path *)
  unwritable : gset string;       (* paths that cannot be opened for writing *)
  stdout : list string            (* the lines printed so far *)
}.

(** The world with another instance dictionary. *)
Definition set_self (d : gmap string value) (w : world) : world :=
  World d (files w) (unwritable w) (stdout w).

(** A method body: it reads and changes the world, and raises or returns.
    The world at the time an exception is raised is kept. *)
Definition M (A : Type) : Type := world -> res A * world.

Definition ret {A} (a : A) : M A := fun w => (ok a, w).
Definition raise {A} (e : exn) : M A := fun w => (throw e, w).
Definition lift {A} (r : res A) : M A := fun w => (r, w).

Definition bind {A B} (m : M A) (k : A -> M B) : M B := fun w =>
  match m w with
  | (inl e, w') => (inl e, w')
  | (inr a, w') => k a w'
  end.

Notation "'let*' x ':=' m 'in' k" := (bind m (fun x => k))
  (at level 10, x name, m at level 100, k at level 200).
Notation "m ';;' k" := (bind m (fun _ => k))
  (at level 100, k at level 200, right associativity, only parsing).

Fixpoint map_m {A B} (f : A -> M B) (l : list A) : M (list B) :=
  match l with
  | [] => ret []
  | a :: l' =>
      let* b := f a in
      let* bs := map_m f l' in
      ret (b :: bs)
  end.

Fixpoint for_each {A} (l : list A) (body : A -> M unit) : M unit :=
  match l with
  | [] => ret tt
  | a :: l' => body a ;; for_each l' body
  end.

(** [self.name] *)
Definition getattr (name : string) : M value := fun w =>
  match self_dict w !! name with
  | Some v => (ok v, w)
  | None => (throw AttributeError, w)
  end.

(** [self.name = v] *)
Definition setattr (name : string) (v : value) : M unit := fun w =>
  (ok tt, set_self (<[name := v]> (self_dict w)) w).

(** [setattr(self, key, v)] for a key that is only known when the program
    runs.  [__class__] and [__dict__] take a class and a dictionary, which
    no value of the model is, and [__weakref__] cannot be written; every
    other key goes to the instance dictionary. *)
Definition py_setattr (key : string) (v : value) : M unit :=
  if bool_decide (key ∈ ["__class__"; "__dict__"]) then raise TypeError
  else if bool_decide (key = "__weakref__") then raise AttributeError
  else setattr key v.

(** [self.name(...)], the arguments being evaluated: the attribute lookup
    finds an entry of the instance dictionary before a function of the
    class, and no value of the model can be called.  The definitions below
    that carry the name of a method are the functions of the class; a call
    of a method on the instance, from another method or from a client, is
    [invoke] of its name. *)
Definition invoke {A} (name : string) (method : M A) : M A := fun w =>
  match self_dict w !! name with
  | Some _ => (throw TypeError, w)
  | None => method w
  end.

(** [key in self.__dict__.keys()] *)
Definition has_key (key : string) : M bool := fun w =>
  (ok (bool_decide (key ∈ dom (self_dict w))), w).

Definition print (line : string) : M unit := fun w =>
  (ok tt, World (self_dict w) (files w) (unwritable w) (stdout w ++ [line])).

(** [open(path, 'r')] and reading the whole file *)
Definition read_file (path : string) : M File := fun w =>
  match files w !! path with
  | Some f => (ok f, w)
  | None => (throw OSError, w)
  end.

(** [open(path, 'w')] and writing the whole file *)
Definition write_file (path : string) (f : File) : M unit := fun w =>
  if decide (path ∈ unwritable w) then (throw OSError, w)
  else (ok tt, World (self_dict w) (<[path := f]> (files w)) (unwritable w) (stdout w)).

(** The fields [update_num_iterations] ranges over, in its order. *)
Definition counted_fields : list string :=
  ["width_range"; "height_range"; "wh_ratio_range"; "dilation_kernel";
   "dilation_iterations"; "morph_kernels_type"; "horizontal_max_distance";
   "morph_kernels_thickness"; "vertical_max_distance"].

Definition update_num_iterations : M unit :=
  setattr "num_iterations" (VInt 1) ;;
  let* variables := map_m getattr counted_fields in
  for_each variables (fun variable =>
    let variable := if is_list variable then variable else VList [variable] in
    let* num_iterations := getattr "num_iterations" in
    let* n := lift (as_int num_iterations) in
    let* len_variable := lift (py_len variable) in
    setattr "num_iterations"
      (if (n <? len_variable)%Z then VInt len_variable else num_iterations)).

(** [__conv_to_list] *)
Definition conv_to_list (x : value) (max_items : Z) : res (list value) :=
  match x with
  | VList l =>
      if (max_items <=? Z.of_nat (length l))%Z then ok l
      else
        let? x0 := py_getitem x 0 in
        ok (replicate (Z.to_nat max_items) x0)
  | _ => ok (replicate (Z.to_nat max_items) x)
  end.

(** The fields [variables_as_iterators] expands, in the order of the
    tuple components. *)
Definition variables_list_fields : list string :=
  ["width_range"; "height_range"; "wh_ratio_range"; "dilation_iterations";
   "dilation_kernel"; "vertical_max_distance"; "horizontal_max_distance";
   "morph_kernels_type"; "morph_kernels_thickness"].

(** Inside the class the name [__conv_to_list] is mangled. *)
Definition variables_as_iterators : M zip_object :=
  invoke "update_num_iterations" update_num_iterations ;;
  let* variables_list := map_m getattr variables_list_fields in
  let* lists := map_m (fun variable =>
                  let* num_iterations := getattr "num_iterations" in
                  let* n := lift (as_int num_iterations) in
                  invoke "_PipelinesConfig__conv_to_list"
                    (lift (conv_to_list variable n))) variables_list in
  ret (py_zip lists).

(** [__add_margin_to_size], for a [numpy.int64] [size], a float
    [margin_percent] and an integer [margin_px_limit]: the product is a
    [numpy.float64] and the result a Python integer. *)
Definition add_margin_to_size (size : Z) (margin_percent : float)
    (margin_px_limit : Z) : res Z :=
  let? calc_margin := py_int (float_of_Z size * margin_percent)%float in
  ok (if (calc_margin <? margin_px_limit)%Z then calc_margin else margin_px_limit).

(** The body of the loop of [autoconfigure] for the label [i]: the row
    appended to [hw_grouped].  The bounds of the group are [numpy.int64],
    the paddings are Python integers, and the quotients are
    [numpy.float64]. *)
Definition hw_group (box_sizes : list (Z * Z)) (clusters : list Z)
    (margin_percent : float) (margin_px_limit : Z)
    (use_rect_kernel_for_small : bool) (rect_kernel_threshold : Z)
    (i : Z) : M (list value) :=
  let* group := lift (np_select box_sizes clusters i) in
  let* minh := lift (py_min (fst <$> group)) in
  let* maxh := lift (py_max (fst <$> group)) in
  let* minw := lift (py_min (snd <$> group)) in
  let* maxw := lift (py_max (snd <$> group)) in
  let* mminh := invoke "_PipelinesConfig__add_margin_to_size"
                  (lift (add_margin_to_size minh margin_percent
                           margin_px_limit)) in
  let* calc_minh := lift (np_sub minh mminh) in
  let* mmaxh := invoke "_PipelinesConfig__add_margin_to_size"
                  (lift (add_margin_to_size maxh margin_percent
                           margin_px_limit)) in
  let* calc_maxh := lift (np_add maxh mmaxh) in
  let* mminw := invoke "_PipelinesConfig__add_margin_to_size"
                  (lift (add_margin_to_size minw margin_percent
                           margin_px_limit)) in
  let* calc_minw := lift (np_sub minw mminw) in
  let* mmaxw := invoke "_PipelinesConfig__add_margin_to_size"
                  (lift (add_margin_to_size maxw margin_percent
                           margin_px_limit)) in
  let* calc_maxw := lift (np_add maxw mmaxw) in
  ret [VTuple [VInt64 calc_minh; VInt64 calc_maxh];
       VTuple [VInt64 calc_minw; VInt64 calc_maxw];
       VList (VFloat64 <$> py_sorted2
                (float_of_Z calc_minw / float_of_Z calc_minh)%float
                (float_of_Z calc_maxw / float_of_Z calc_maxh)%float);
       VStr (if use_rect_kernel_for_small
                && (maxh <=? rect_kernel_threshold)%Z
                && (maxw <=? rect_kernel_threshold)%Z
             then "rectangles" else "lines")].

Definition autoconfigure (box_sizes : list (Z * Z)) (epsilon : value)
    (margin_percent : float) (margin_px_limit : Z)
    (use_rect_kernel_for_small : bool) (rect_kernel_threshold : Z)
  : M unit :=
  let* clusters := lift (let? labels := fit_predict epsilon box_sizes in
                         np_labels labels) in
  let* box_sizes := lift (np_asarray box_sizes) in
  let* top := lift (py_max clusters) in
  let* stop := lift (np_add top 1) in
  let* hw_grouped :=
    map_m (hw_group box_sizes clusters margin_percent margin_px_limit
             use_rect_kernel_for_small rect_kernel_threshold)
          (py_range 0 stop) in
  let* width_range := lift (np_column hw_grouped 1) in
  setattr "width_range" (VList width_range) ;;
  let* height_range := lift (np_column hw_grouped 0) in
  setattr "height_range" (VList height_range) ;;
  let* wh_ratio_range := lift (np_column hw_grouped 2) in
  setattr "wh_ratio_range" (VList wh_ratio_range) ;;
  let* morph_kernels_type := lift (np_column hw_grouped 3) in
  setattr "morph_kernels_type" (VList morph_kernels_type) ;;
  invoke "update_num_iterations" update_num_iterations.

(** [callable(key)] on a dictionary key, which is a string. *)
Definition callable_key (key : string) : bool := false.

(** The filter of the dictionary comprehension in [save_yaml]. *)
Definition saved_key (key : string) : bool :=
  negb (String.prefix "__" key) && negb (callable_key key).

Definition save_yaml (path : string) : M unit := fun w =>
  let variables_dict :=
    filter (fun kv => saved_key kv.1 = true) (self_dict w) in
  write_file path (yaml_dump variables_dict) w.

Definition load_yaml (path : string) (suppress_warnings : bool) : M unit :=
  let* file := read_file path in
  let* variables_dict := lift (yaml_load file) in
  for_each variables_dict (fun '(key, v) =>
    let* known := has_key key in
    (if negb suppress_warnings && negb known
     then print ("WARNING: Loaded variable '" +:+ key +:+
                 "' which was not previously present in the config.")
     else ret tt) ;;
    py_setattr key v) ;;
  invoke "update_num_iterations" update_num_iterations.

(** [__init__]; [None] and the empty string are both false in the test
    [if yaml_path]. *)
Definition __init__ (yaml_path : option string) : M unit :=
  setattr "width_range" (VList [VTuple [VInt 40; VInt 50]]) ;;
  setattr "height_range" (VList [VTuple [VInt 50; VInt 60]]) ;;
  setattr "wh_ratio_range" (VList [VTuple [VFloat 0.65; VFloat 0.1]]) ;;
  setattr "scaling_factors" (VList [VFloat 0.5]) ;;
  setattr "thickness" (VInt 2) ;;
  setattr "dilation_kernel" (VList [VTuple [VInt 2; VInt 2]]) ;;
  setattr "dilation_iterations" (VList [VInt 0]) ;;
  setattr "morph_kernels_type" (VList [VStr "lines"]) ;;
  setattr "morph_kernels_thickness" (VList [VInt 1]) ;;
  setattr "group_size_range" (VTuple [VInt 1; VInt 100]) ;;
  setattr "vertical_max_distance" (VList [VInt 10]) ;;
  let* width_range := getattr "width_range" in
  let* first := lift (py_getitem width_range 0) in
  let* lower := lift (py_getitem first 0) in
  let* doubled := lift (py_mul_int lower 2) in
  setattr "horizontal_max_distance" (VList [doubled]) ;;
  match yaml_path with
  | Some path =>
      if bool_decide (path = "") then ret tt
      else invoke "load_yaml" (load_yaml path false)
  | None => ret tt
  end ;;
  invoke "update_num_iterations" update_num_iterations.

(** [PipelinesConfig(yaml_path)]: [__init__] on a new, empty instance. *)
Definition new (yaml_path : option string) : M unit := fun w =>
  __init__ yaml_path (set_self ∅ w).


(** ** Notions used to state the properties *)

(** The values of the fields [names] in a dictionary, if all are there. *)
Definition values_of (d : gmap string value) (names : list string)
  : option (list value) :=
  mapM (fun name => d !! name) names.

(** The length a field counts for: 1 for a scalar, else its length. *)
Definition field_len (x : value) : Z :=
  match x with
  | VList l => Z.of_nat (length l)
  | _ => 1
  end.

(** The largest length among fields, and at least 1. *)
Definition max_len (xs : list value) : Z :=
  foldr (fun x n => Z.max (field_len x) n) 1%Z xs.

(** A tuple component is resolved from a field when it is one element of
    the field's list, or the field itself when the field is a scalar. *)
Definition resolved_from (field component : value) : Prop :=
  match field with
  | VList l => component ∈ l
  | _ => component = field
  end.

(** Scalars and pairs of the data model. *)
Definition is_scalar (x : value) : Prop :=
  match x with
  | VTuple _ | VList _ => False
  | _ => True
  end.

Definition is_entry (x : value) : Prop :=
  match x with
  | VTuple [a; b] | VList [a; b] => is_scalar a ∧ is_scalar b
  | VTuple _ | VList _ => False
  | _ => True
  end.

(** A field of the data model: an entry, or a list of entries. *)
Definition well_typed (field : value) : Prop :=
  match field with
  | VList l => Forall is_entry l
  | _ => is_entry field
  end.

(** The recognized parameters of the data model. *)
Definition recognized_fields : list string :=
  ["width_range"; "height_range"; "wh_ratio_range"; "scaling_factors";
   "thickness"; "dilation_kernel"; "dilation_iterations";
   "morph_kernels_type"; "morph_kernels_thickness"; "group_size_range";
   "vertical_max_distance"; "horizontal_max_distance"].

(** The mapping that [save_yaml] hands to [yaml.dump]. *)
Definition saved_dict (d : gmap string value) : gmap string value :=
  filter (fun kv => saved_key kv.1 = true) d.

(** The serializer reads back the mapping [d] that it wrote. *)
Definition yaml_round_trips (d : gmap string value) : Prop :=
  ∃ items, yaml_load (yaml_dump d) = ok items
           ∧ NoDup items.*1 ∧ list_to_map items = d.

(** Every value of the dictionary is plain. *)
Definition plain_dict (d : gmap string value) : Prop :=
  map_Forall (fun _ v => plain v = true) d.

(** What the model relies on from PyYAML: a mapping of plain values that
    [yaml.dump] wrote is read back by [yaml.load], each key once. *)
Definition yaml_reads_back_plain : Prop :=
  ∀ d, plain_dict d -> yaml_round_trips d.

(** The names that [setattr] does not store in the instance dictionary. *)
Definition reserved_names : list string :=
  ["__class__"; "__dict__"; "__weakref__"].

(** Instances reachable by construction and by calls of [autoconfigure],
    [load_yaml] and [save_yaml] that return. *)
Inductive reachable : world -> Prop :=
  | reach_new yaml_path w0 :
      (new yaml_path w0).1 = ok tt ->
      reachable (new yaml_path w0).2
  | reach_autoconfigure w box_sizes epsilon margin_percent margin_px_limit
      use_rect_kernel_for_small rect_kernel_threshold :
      reachable w ->
      (invoke "autoconfigure"
         (autoconfigure box_sizes epsilon margin_percent margin_px_limit
            use_rect_kernel_for_small rect_kernel_threshold) w).1 = ok tt ->
      reachable (invoke "autoconfigure"
                   (autoconfigure box_sizes epsilon margin_percent
                      margin_px_limit use_rect_kernel_for_small
                      rect_kernel_threshold) w).2
  | reach_load w path suppress_warnings :
      reachable w ->
      (invoke "load_yaml" (load_yaml path suppress_warnings) w).1 = ok tt ->
      reachable (invoke "load_yaml" (load_yaml path suppress_warnings) w).2
  | reach_save w path :
      reachable w ->
      (invoke "save_yaml" (save_yaml path) w).1 = ok tt ->
      reachable (invoke "save_yaml" (save_yaml path) w).2.


(** A [zip] object that yields nothing more: it has no iterator, or one
    of its iterators is exhausted. *)
Definition exhausted (z : zip_object) : Prop :=
  z = [] ∨ Exists (fun it => it = []) z.

(** Invariant I1: the stored count is the largest length of the counted
    fields. *)
Definition consistent (d : gmap string value) : Prop :=
  ∃ cvs, values_of d counted_fields = Some cvs
         ∧ d !! "num_iterations" = Some (VInt (max_len cvs)).

(** Every recognized parameter is there. *)
Definition complete (d : gmap string value) : Prop :=
  Forall (fun name => is_Some (d !! name)) recognized_fields.

(** Attributes are added and overwritten, never deleted. *)
Definition extends (d d' : gmap string value) : Prop :=
  ∀ name, is_Some (d !! name) -> is_Some (d' !! name).

(** The built-in defaults that [__init__] stores over a dictionary. *)
Definition with_defaults (d : gmap string value) : gmap string value :=
  <["horizontal_max_distance" := VList [VInt 80]]>
  (<["vertical_max_distance" := VList [VInt 10]]>
  (<["group_size_range" := VTuple [VInt 1; VInt 100]]>
  (<["morph_kernels_thickness" := VList [VInt 1]]>
  (<["morph_kernels_type" := VList [VStr "lines"]]>
  (<["dilation_iterations" := VList [VInt 0]]>
  (<["dilation_kernel" := VList [VTuple [VInt 2; VInt 2]]]>
  (<["thickness" := VInt 2]>
  (<["scaling_factors" := VList [VFloat 0.5]]>
  (<["wh_ratio_range" := VList [VTuple [VFloat 0.65; VFloat 0.1]]]>
  (<["height_range" := VList [VTuple [VInt 50; VInt 60]]]>
  (<["width_range" := VList [VTuple [VInt 40; VInt 50]]]> d))))))))))).

(** The line that [load_yaml] prints for a key that is new to the
    instance. *)
Definition warning (key : string) : string :=
  "WARNING: Loaded variable '" +:+ key +:+
  "' which was not previously present in the config.".

(** The keys among [items] that are not attributes when their turn comes
    in the loop of [load_yaml], started on the dictionary [d]. *)
Fixpoint new_keys (d : gmap string value) (items : list (string * value))
  : list string :=
  match items with
  | [] => []
  | (key, v) :: items' =>
      (if bool_decide (key ∈ dom d) then [] else [key])
      ++ new_keys (<[key := v]> d) items'
  end.

(** The component at position [j] of the broadcast of a field to [n]
    positions. *)
Definition broadcast_at (n : Z) (j : nat) (field : value) : option value :=
  match field with
  | VList l => if (n <=? Z.of_nat (length l))%Z then l !! j else head l
  | _ => Some field
  end.

(** ** The monad *)

Lemma bind_ok {A B} (m : M A) (k : A -> M B) w a w' :
  m w = (ok a, w') -> bind m k w = k a w'.
Proof. intros H. unfold bind. by rewrite H. Qed.

Lemma bind_throw {A B} (m : M A) (k : A -> M B) w e w' :
  m w = (throw e, w') -> bind m k w = (throw e, w').
Proof. intros H. unfold bind. by rewrite H. Qed.

Lemma bind_ok_inv {A B} (m : M A) (k : A -> M B) w b w2 :
  bind m k w = (ok b, w2) ->
  ∃ a w1, m w = (ok a, w1) ∧ k a w1 = (ok b, w2).
Proof.
  unfold bind. destruct (m w) as [[e|a] w1]; intros H.
  - discriminate.
  - by exists a, w1.
Qed.

Lemma lift_ok_inv {A} (r : res A) w a w' :
  lift r w = (ok a, w') -> r = ok a ∧ w' = w.
Proof. unfold lift. intros [= -> ->]. done. Qed.

Lemma setattr_eq name v w :
  setattr name v w = (ok tt, set_self (<[name := v]> (self_dict w)) w).
Proof. reflexivity. Qed.

Lemma invoke_None {A} name (method : M A) w :
  self_dict w !! name = None -> invoke name method w = method w.
Proof. intros H. unfold invoke. by rewrite H. Qed.

Lemma invoke_Some {A} name (method : M A) w v :
  self_dict w !! name = Some v -> invoke name method w = (throw TypeError, w).
Proof. intros H. unfold invoke. by rewrite H. Qed.

(** A call that returns found the method of the class. *)
Lemma invoke_ok_inv {A} name (method : M A) w a w' :
  invoke name method w = (ok a, w') ->
  self_dict w !! name = None ∧ method w = (ok a, w').
Proof. unfold invoke. by destruct (self_dict w !! name). Qed.

Lemma py_setattr_eq key v w :
  key ∉ reserved_names ->
  py_setattr key v w = (ok tt, set_self (<[key := v]> (self_dict w)) w).
Proof.
  intros Hkey. unfold py_setattr, reserved_names in *.
  rewrite !not_elem_of_cons in Hkey. destruct Hkey as (? & ? & ? & _).
  rewrite bool_decide_eq_false_2.
  - by rewrite bool_decide_eq_false_2.
  - rewrite !elem_of_cons, elem_of_nil. by intros [?|[?|[]]].
Qed.

(** [setattr] on a reserved name raises and stores nothing. *)
Lemma py_setattr_reserved key v w :
  key ∈ reserved_names ->
  ∃ e, py_setattr key v w = (throw e, w).
Proof.
  unfold py_setattr, reserved_names.
  rewrite !elem_of_cons, elem_of_nil. intros [->|[->|[->|[]]]]; by eexists.
Qed.

Lemma getattr_Some name v w :
  self_dict w !! name = Some v -> getattr name w = (ok v, w).
Proof. intros H. unfold getattr. by rewrite H. Qed.

Lemma set_self_self w : set_self (self_dict w) w = w.
Proof. by destruct w. Qed.

Lemma set_self_twice d d' w : set_self d (set_self d' w) = set_self d w.
Proof. reflexivity. Qed.

(** Reading several attributes changes nothing; it fails on the first
    missing one. *)
Lemma map_m_getattr names w :
  map_m getattr names w =
    match values_of (self_dict w) names with
    | Some vs => (ok vs, w)
    | None => (throw AttributeError, w)
    end.
Proof.
  induction names as [|name names IH]; [done|].
  cbn [map_m]. unfold values_of in *. cbn [mapM].
  destruct (self_dict w !! name) as [v|] eqn:Hv; cbn.
  - erewrite bind_ok by (by apply getattr_Some).
    unfold bind. rewrite IH.
    by destruct (mapM (λ name0, self_dict w !! name0) names).
  - erewrite bind_throw; [done|]. unfold getattr. by rewrite Hv.
Qed.

Lemma values_of_insert_ne d names name v :
  name ∉ names ->
  values_of (<[name := v]> d) names = values_of d names.
Proof.
  unfold values_of. induction names as [|k names IH]; [done|].
  intros Hnot. apply not_elem_of_cons in Hnot as [Hne Hnot].
  cbn. rewrite lookup_insert_ne by done. by rewrite IH.
Qed.

(** ** [update_num_iterations] *)

Lemma field_len_pos x : (1 <= field_len x ∨ x = VList [])%Z.
Proof.
  destruct x as [| | | | | |l| |]; cbn; try (left; lia).
  destruct l; [by right|left; cbn; lia].
Qed.

Lemma max_len_cons x xs :
  max_len (x :: xs) = Z.max (field_len x) (max_len xs).
Proof. reflexivity. Qed.

Lemma max_len_ge_1 xs : (1 <= max_len xs)%Z.
Proof.
  induction xs as [|x xs IH]; [done|]. rewrite max_len_cons. lia.
Qed.

Lemma max_len_ge x xs : x ∈ xs -> (field_len x <= max_len xs)%Z.
Proof.
  induction 1 as [|x y xs _ IH]; rewrite max_len_cons; lia.
Qed.

Lemma max_len_le xs b :
  (1 <= b)%Z -> Forall (fun x => (field_len x <= b)%Z) xs -> (max_len xs <= b)%Z.
Proof.
  intros Hb. induction 1 as [|x xs Hx _ IH]; [done|].
  rewrite max_len_cons. lia.
Qed.

(** The loop of [update_num_iterations], started with the count [n]. *)
Lemma count_loop variables : ∀ w n,
  self_dict w !! "num_iterations" = Some (VInt n) ->
  for_each variables (fun variable =>
    let variable := if is_list variable then variable else VList [variable] in
    let* num_iterations := getattr "num_iterations" in
    let* n := lift (as_int num_iterations) in
    let* len_variable := lift (py_len variable) in
    setattr "num_iterations"
      (if (n <? len_variable)%Z then VInt len_variable else num_iterations)) w
  = (ok tt,
     set_self (<["num_iterations" :=
                  VInt (foldl (fun n x => Z.max n (field_len x)) n variables)]>
                (self_dict w)) w).
Proof.
  induction variables as [|x xs IH]; intros w n Hn.
  - cbn. rewrite insert_id by done. by rewrite set_self_self.
  - cbn [for_each foldl].
    match goal with |- context [for_each _ ?b] => set (body := b) end.
    assert (body x w
            = (ok tt, set_self (<["num_iterations" := VInt (Z.max n (field_len x))]>
                                  (self_dict w)) w)) as Hbody.
    { unfold body. erewrite bind_ok by (by apply getattr_Some).
      cbn [as_int]. unfold bind at 1, lift at 1. cbn.
      assert (py_len (if is_list x then x else VList [x]) = ok (field_len x)) as ->.
      { by destruct x. }
      unfold bind, lift. rewrite setattr_eq. do 3 f_equal.
      destruct (Z.ltb_spec n (field_len x)); f_equal; lia. }
    erewrite bind_ok by exact Hbody.
    rewrite IH with (n := Z.max n (field_len x)).
    + cbn. by rewrite insert_insert_eq.
    + cbn. by rewrite lookup_insert_eq.
Qed.

Lemma foldl_max_len xs : ∀ n, (1 <= n)%Z ->
  foldl (fun n x => Z.max n (field_len x)) n xs = Z.max n (max_len xs).
Proof.
  induction xs as [|x xs IH]; intros n Hn.
  - cbn. lia.
  - cbn [foldl]. rewrite IH, max_len_cons by lia. lia.
Qed.

Lemma counted_fields_not_num : "num_iterations" ∉ counted_fields.
Proof. apply (bool_decide_unpack _). vm_compute. exact I. Qed.

(** [update_num_iterations] stores the largest length of the counted
    fields; it raises exactly when one of them is missing. *)
Lemma update_num_iterations_eq w :
  update_num_iterations w =
    match values_of (self_dict w) counted_fields with
    | Some vs =>
        (ok tt, set_self (<["num_iterations" := VInt (max_len vs)]> (self_dict w)) w)
    | None =>
        (throw AttributeError,
         set_self (<["num_iterations" := VInt 1]> (self_dict w)) w)
    end.
Proof.
  unfold update_num_iterations.
  erewrite bind_ok by apply setattr_eq.
  unfold bind at 1. rewrite map_m_getattr. cbn [self_dict set_self].
  rewrite values_of_insert_ne by apply counted_fields_not_num.
  destruct (values_of (self_dict w) counted_fields) as [vs|]; [|done].
  rewrite count_loop with (n := 1%Z) by (cbn; by rewrite lookup_insert_eq).
  cbn. rewrite insert_insert_eq, foldl_max_len by lia.
  pose proof (max_len_ge_1 vs). by rewrite Z.max_r by lia.
Qed.

(** ** The [zip] iterator *)

(** A round over iterators that all have an element yields their heads
    and leaves their tails. *)
Lemma zip_advance_step its :
  Forall (fun it => it ≠ []) its ->
  ∃ hs, zip_advance its = (Some hs, tail <$> its)
        ∧ Forall2 (fun it h => head it = Some h) its hs.
Proof.
  induction 1 as [|it rest Hit _ (hs & IH & Hhs)].
  - by exists [].
  - destruct it as [|x it']; [done|].
    exists (x :: hs). cbn. rewrite IH. split; [done|].
    by constructor.
Qed.

(** A round that meets an exhausted iterator stops, and that iterator
    stays exhausted. *)
Lemma zip_advance_stop its :
  Exists (fun it => it = []) its ->
  ∃ z', zip_advance its = (None, z') ∧ Exists (fun it => it = []) z'.
Proof.
  induction its as [|it rest IH]; intros Hex.
  - by apply Exists_nil in Hex.
  - destruct it as [|x it'].
    + exists ([] :: rest). split; [done|]. by left.
    + apply Exists_cons in Hex as [?|Hex]; [done|].
      destruct (IH Hex) as (z' & Hz' & Hex').
      exists (it' :: z'). cbn. rewrite Hz'. split; [done|]. by right.
Qed.

Lemma zip_advance_None its z' :
  zip_advance its = (None, z') -> Exists (fun it => it = []) z'.
Proof.
  revert z'. induction its as [|it rest IH]; intros z'; [done|].
  destruct it as [|x it']; cbn.
  - intros [= <-]. by left.
  - destruct (zip_advance rest) as [[t|] rest'] eqn:Hrest; [done|].
    intros [= <-]. right. by apply IH.
Qed.

Lemma zip_next_exhausted z :
  exhausted z -> ∃ z', zip_next z = (None, z') ∧ exhausted z'.
Proof.
  intros [->|Hex].
  - exists []. split; [done|]. by left.
  - destruct (zip_advance_stop z Hex) as (z' & Hz' & Hex').
    exists z'. split; [|by right].
    destruct z; [by apply Exists_nil in Hex|done].
Qed.

Lemma zip_next_None z z' : zip_next z = (None, z') -> exhausted z'.
Proof.
  destruct z as [|it rest].
  - intros [= <-]. by left.
  - intros H. right. by eapply zip_advance_None.
Qed.

(** A yielded tuple takes one element of the first iterator. *)
Lemma zip_next_Some_hd z t z' :
  zip_next z = (Some t, z') -> length (hd [] z) = S (length (hd [] z')).
Proof.
  destruct z as [|[|x it'] rest]; [done..|]. cbn.
  destruct (zip_advance rest) as [[r|] rest']; [|done].
  by intros [= _ <-].
Qed.

(** Fuel beyond the length of the first iterator changes nothing: the
    iteration of [py_list] ends on [StopIteration]. *)
Lemma iterate_fuel f1 : ∀ f2 z,
  length (hd [] z) < f1 -> length (hd [] z) < f2 ->
  iterate f1 z = iterate f2 z.
Proof.
  induction f1 as [|f1 IH]; intros [|f2] z H1 H2; [lia..|].
  cbn [iterate]. destruct (zip_next z) as [[t|] z'] eqn:Hnext; [|done].
  apply zip_next_Some_hd in Hnext.
  rewrite (IH f2 z') by lia. done.
Qed.

Lemma py_list_fuel fuel z :
  length (hd [] z) < fuel -> iterate fuel z = py_list z.
Proof. intros H. unfold py_list. apply iterate_fuel; lia. Qed.

Lemma iterate_exhausts fuel : ∀ z ts z',
  length (hd [] z) < fuel -> iterate fuel z = (ts, z') -> exhausted z'.
Proof.
  induction fuel as [|fuel IH]; intros z ts z' Hlen; [lia|].
  cbn [iterate]. destruct (zip_next z) as [[t|] z1] eqn:Hnext.
  - destruct (iterate fuel z1) as [ts1 z2] eqn:Hit. intros [= _ <-].
    apply zip_next_Some_hd in Hnext. eapply (IH z1); [lia|done].
  - intros [= _ <-]. by eapply zip_next_None.
Qed.

(** After [list(z)] the iterator is exhausted... *)
Lemma py_list_exhausts z ts z' : py_list z = (ts, z') -> exhausted z'.
Proof. apply iterate_exhausts. lia. Qed.

(** ...and [list] of an exhausted iterator is empty. *)
Lemma py_list_exhausted z :
  exhausted z -> ∃ z', py_list z = ([], z') ∧ exhausted z'.
Proof.
  intros Hex. destruct (zip_next_exhausted z Hex) as (z' & Hz' & Hex').
  exists z'. unfold py_list. cbn [iterate]. by rewrite Hz'.
Qed.

(** The tuples of [list(zip(...))]: as many as the shortest list has
    elements, the tuple at [j] holding the elements at [j]. *)
Lemma iterate_tuples m : ∀ its fuel,
  Forall (fun it => m <= length it) its ->
  Exists (fun it => length it = m) its ->
  m < fuel ->
  ∃ tuples z',
    iterate fuel its = (tuples, z')
    ∧ length tuples = m
    ∧ ∀ j t, tuples !! j = Some t ->
             Forall2 (fun it x => it !! j = Some x) its t.
Proof.
  induction m as [|m IH]; intros its fuel Hall Hex Hfuel;
    (destruct fuel as [|fuel]; [lia|]).
  - assert (Exists (fun it => it = []) its) as Hnil.
    { eapply Exists_impl; [exact Hex|]. intros it. apply nil_length_inv. }
    destruct (zip_next_exhausted its (or_intror Hnil)) as (z' & Hz' & _).
    exists [], z'. cbn [iterate]. rewrite Hz'. done.
  - assert (Forall (fun it => it ≠ []) its) as Hne.
    { eapply Forall_impl; [exact Hall|]. intros [|? ?]; cbn; [lia|done]. }
    destruct (zip_advance_step its Hne) as (hs & Hadv & Hhs).
    assert (zip_next its = (Some hs, tail <$> its)) as Hnext.
    { destruct its; [by apply Exists_nil in Hex|done]. }
    destruct (IH (tail <$> its) fuel) as (tuples & z' & Hit & Hlen & Hts).
    + apply Forall_fmap. eapply Forall_impl; [exact Hall|].
      intros it. cbn. rewrite length_tl. lia.
    + apply Exists_fmap. eapply Exists_impl; [exact Hex|].
      intros it. cbn. rewrite length_tl. lia.
    + lia.
    + exists (hs :: tuples), z'. cbn [iterate]. rewrite Hnext, Hit.
      split; [done|]. split; [cbn; lia|].
      intros [|j] t; cbn.
      * intros [= <-]. eapply Forall2_impl; [exact Hhs|].
        intros it h. cbn. by rewrite head_lookup.
      * intros Ht. apply Hts in Ht.
        apply Forall2_fmap_l in Ht. eapply Forall2_impl; [exact Ht|].
        intros it x. cbn. by rewrite lookup_tail.
Qed.

Lemma py_list_tuples m lists :
  Forall (fun it => m <= length it) lists ->
  Exists (fun it => length it = m) lists ->
  ∃ tuples z',
    py_list (py_zip lists) = (tuples, z')
    ∧ length tuples = m
    ∧ ∀ j t, tuples !! j = Some t ->
             Forall2 (fun it x => it !! j = Some x) lists t.
Proof.
  intros Hall Hex. apply iterate_tuples; [done..|].
  unfold py_zip. destruct lists as [|it rest]; [by apply Exists_nil in Hex|].
  cbn. apply Forall_cons in Hall as [? _]. lia.
Qed.

(** ** Floats *)



(** ** NumPy and the built-ins on its arrays *)

Lemma in_int64_spec z : in_int64 z = true ↔ (- 2 ^ 63 <= z < 2 ^ 63)%Z.
Proof. unfold in_int64. rewrite andb_true_iff, Z.leb_le, Z.ltb_lt. done. Qed.

Lemma wrap64_id z : (- 2 ^ 63 <= z < 2 ^ 63)%Z -> wrap64 z = z.
Proof. intros Hz. unfold wrap64. rewrite Z.mod_small; lia. Qed.

Lemma wrap64_range z : (- 2 ^ 63 <= wrap64 z < 2 ^ 63)%Z.
Proof.
  unfold wrap64. pose proof (Z.mod_pos_bound (z + 2 ^ 63) (2 ^ 64)). lia.
Qed.

(** [min] and [max] bound every element, and are elements. *)
Lemma py_min_spec xs m :
  py_min xs = ok m -> m ∈ xs ∧ ∀ x, x ∈ xs -> (m <= x)%Z.
Proof.
  clear yaml_dump yaml_load fit_predict File.
  destruct xs as [|x0 xs]; [done|]. cbn. intros [= <-].
  revert x0. induction xs as [|y ys IH]; intros x0; cbn [foldl].
  - split; [by left|]. intros x ->%list_elem_of_singleton. lia.
  - destruct (IH (if (y <? x0)%Z then y else x0)) as [Hin Hle].
    split.
    + apply elem_of_cons in Hin as [->|Hin].
      * destruct (y <? x0)%Z; [right; by left|by left].
      * right. by right.
    + intros x Hx.
      assert ((if (y <? x0)%Z then y else x0) <= x0
              ∧ (if (y <? x0)%Z then y else x0) <= y)%Z as [H0 Hy].
      { destruct (Z.ltb_spec y x0); lia. }
      pose proof (Hle (if (y <? x0)%Z then y else x0) ltac:(by left)) as Hm.
      apply elem_of_cons in Hx as [->|Hx]; [lia|].
      apply elem_of_cons in Hx as [->|Hx]; [lia|].
      apply Hle. by right.
Qed.

Lemma py_max_spec xs m :
  py_max xs = ok m -> m ∈ xs ∧ ∀ x, x ∈ xs -> (x <= m)%Z.
Proof.
  clear yaml_dump yaml_load fit_predict File.
  destruct xs as [|x0 xs]; [done|]. cbn. intros [= <-].
  revert x0. induction xs as [|y ys IH]; intros x0; cbn [foldl].
  - split; [by left|]. intros x ->%list_elem_of_singleton. lia.
  - destruct (IH (if (x0 <? y)%Z then y else x0)) as [Hin Hle].
    split.
    + apply elem_of_cons in Hin as [->|Hin].
      * destruct (x0 <? y)%Z; [right; by left|by left].
      * right. by right.
    + intros x Hx.
      assert (x0 <= (if (x0 <? y)%Z then y else x0)
              ∧ y <= (if (x0 <? y)%Z then y else x0))%Z as [H0 Hy].
      { destruct (Z.ltb_spec x0 y); lia. }
      pose proof (Hle (if (x0 <? y)%Z then y else x0) ltac:(by left)) as Hm.
      apply elem_of_cons in Hx as [->|Hx]; [lia|].
      apply elem_of_cons in Hx as [->|Hx]; [lia|].
      apply Hle. by right.
Qed.

(** The integer part of a float that is not below zero is not negative. *)
Lemma py_int_nonneg x t :
  py_int x = ok t -> (x <? 0)%float = false -> (0 <= t)%Z.
Proof.
  rewrite ltb_spec. unfold py_int, SFint.
  destruct (Prim2SF x) as [s|s| |s m e]; try done.
  - intros [= <-]. lia.
  - change (Prim2SF 0) with (S754_zero false). unfold SFltb, SFcompare.
    destruct s; [done|]. intros [= <-] _. cbn [cond_Zopp].
    destruct (0 <=? e)%Z eqn:He.
    + apply Z.mul_nonneg_nonneg; [lia|]. apply Z.pow_nonneg. lia.
    + apply Z.quot_pos; [lia|]. apply Z.pow_pos_nonneg; lia.
Qed.

(** The rows of a boolean-mask selection are rows of the array, with the
    selected label. *)
Lemma np_select_spec (box_sizes : list (Z * Z)) clusters i group p :
  np_select box_sizes clusters i = ok group ->
  p ∈ group ↔ ∃ k, box_sizes !! k = Some p ∧ clusters !! k = Some i.
Proof.
  clear yaml_dump yaml_load fit_predict File.
  unfold np_select. destruct (decide _) as [Hlen|]; [|done]. intros [= <-].
  rewrite list_elem_of_fmap. split.
  - intros ([p' c] & -> & Hin). apply list_elem_of_filter in Hin as [Hc Hin].
    cbn in Hc. subst c. apply list_elem_of_lookup in Hin as [k Hk].
    apply lookup_zip_with_Some in Hk as (? & ? & [= <- <-] & ? & ?).
    by exists k.
  - intros (k & Hp & Hc). exists (p, i). split; [done|].
    apply list_elem_of_filter. split; [done|].
    apply list_elem_of_lookup. exists k.
    apply lookup_zip_with_Some. by exists p, i.
Qed.


(** ** [__conv_to_list] and [variables_as_iterators] *)

Lemma res_map_ok {A B} (f : A -> res B) (P : A -> B -> Prop) xs :
  Forall (fun x => ∃ y, f x = ok y ∧ P x y) xs ->
  ∃ ys, res_map f xs = ok ys ∧ Forall2 P xs ys.
Proof.
  induction 1 as [|x xs (y & Hy & HP) _ (ys & Hys & HPs)].
  - by exists [].
  - exists (y :: ys). cbn. rewrite Hy. cbn. rewrite Hys. cbn.
    split; [done|]. by constructor.
Qed.

Lemma res_map_ok_inv {A B} (f : A -> res B) xs : ∀ ys,
  res_map f xs = ok ys -> Forall2 (fun x y => f x = ok y) xs ys.
Proof.
  induction xs as [|x xs IH]; intros ys; cbn.
  - intros [= <-]. constructor.
  - destruct (f x) as [e|y] eqn:Hy; cbn; [done|].
    destruct (res_map f xs) as [e|ys'] eqn:Hys; cbn; [done|].
    intros [= <-]. constructor; [done|]. by apply IH.
Qed.

(** The three cases of the broadcast. *)
Lemma conv_to_list_scalar x max_items :
  is_list x = false ->
  conv_to_list x max_items = ok (replicate (Z.to_nat max_items) x).
Proof. by destruct x. Qed.

Lemma conv_to_list_short x0 l max_items :
  (Z.of_nat (length (x0 :: l)) < max_items)%Z ->
  conv_to_list (VList (x0 :: l)) max_items
  = ok (replicate (Z.to_nat max_items) x0).
Proof.
  intros Hlen. unfold conv_to_list.
  destruct (Z.leb_spec max_items (Z.of_nat (length (x0 :: l)))); [lia|done].
Qed.

Lemma conv_to_list_long l max_items :
  (max_items <= Z.of_nat (length l))%Z ->
  conv_to_list (VList l) max_items = ok l.
Proof.
  intros Hlen. unfold conv_to_list.
  destruct (Z.leb_spec max_items (Z.of_nat (length l))); [done|lia].
Qed.

Lemma conv_to_list_empty max_items :
  (1 <= max_items)%Z ->
  conv_to_list (VList []) max_items = throw IndexError.
Proof.
  intros Hlen. unfold conv_to_list.
  destruct (Z.leb_spec max_items (Z.of_nat (length (@nil value))));
    [cbn in *; lia|done].
Qed.

(** The broadcast raises on an empty list only, and then [IndexError]. *)
Lemma conv_to_list_throw x max_items e :
  conv_to_list x max_items = throw e -> x = VList [] ∧ e = IndexError.
Proof.
  destruct x as [| | | | | |[|x0 l]| |]; try done; unfold conv_to_list.
  - destruct (_ <=? _)%Z; [done|]. by intros [= <-].
  - destruct (_ <=? _)%Z; done.
Qed.

(** Broadcasting a field no longer than [max_items] gives exactly
    [max_items] elements, each resolved from the field. *)
Lemma conv_to_list_ok x max_items :
  x ≠ VList [] -> (field_len x <= max_items)%Z ->
  ∃ l, conv_to_list x max_items = ok l
       ∧ length l = Z.to_nat max_items
       ∧ ∀ y, y ∈ l -> resolved_from x y.
Proof.
  intros Hne Hlen.
  destruct (is_list x) eqn:Hx.
  - destruct x as [| | | | | |l| |]; try done. cbn in Hlen.
    destruct (Z.leb_spec max_items (Z.of_nat (length l))) as [Hge|Hlt].
    + exists l. rewrite conv_to_list_long by done.
      split; [done|]. split; [lia|done].
    + destruct l as [|x0 l]; [done|].
      exists (replicate (Z.to_nat max_items) x0).
      rewrite conv_to_list_short by done.
      split; [done|]. split; [by rewrite length_replicate|].
      intros y [-> _]%elem_of_replicate. cbn. by left.
  - exists (replicate (Z.to_nat max_items) x).
    rewrite conv_to_list_scalar by done.
    split; [done|]. split; [by rewrite length_replicate|].
    intros y [-> _]%elem_of_replicate. by destruct x.
Qed.

(** The comprehension of [variables_as_iterators] reads the count for
    each field and changes nothing. *)
Lemma conv_loop n vs w :
  self_dict w !! "num_iterations" = Some (VInt n) ->
  self_dict w !! "_PipelinesConfig__conv_to_list" = None ->
  map_m (fun variable =>
           let* num_iterations := getattr "num_iterations" in
           let* n := lift (as_int num_iterations) in
           invoke "_PipelinesConfig__conv_to_list"
             (lift (conv_to_list variable n))) vs w
  = (res_map (fun variable => conv_to_list variable n) vs, w).
Proof.
  intros Hn Hconv.
  match goal with |- context [map_m ?b vs] => set (body := b) end.
  induction vs as [|v vs IH]; [done|].
  cbn [map_m res_map].
  assert (body v w = (conv_to_list v n, w)) as Hbody.
  { unfold body. erewrite bind_ok by (by apply getattr_Some).
    unfold bind at 1, lift at 1. cbn [as_int]. by rewrite invoke_None. }
  unfold bind at 1. rewrite Hbody.
  destruct (conv_to_list v n) as [e|l]; cbn; [done|].
  unfold bind. rewrite IH.
  by destruct (res_map _ vs).
Qed.

(** With an instance attribute of its name, the broadcast cannot be
    called. *)
Lemma conv_loop_shadowed n v vs w x :
  self_dict w !! "num_iterations" = Some (VInt n) ->
  self_dict w !! "_PipelinesConfig__conv_to_list" = Some x ->
  map_m (fun variable =>
           let* num_iterations := getattr "num_iterations" in
           let* n := lift (as_int num_iterations) in
           invoke "_PipelinesConfig__conv_to_list"
             (lift (conv_to_list variable n))) (v :: vs) w
  = (throw TypeError, w).
Proof.
  intros Hn Hconv. cbn [map_m].
  erewrite bind_throw; [done|].
  erewrite bind_ok by (by apply getattr_Some).
  unfold bind at 1, lift at 1. cbn [as_int]. by erewrite invoke_Some.
Qed.

Lemma variables_as_iterators_eq w :
  self_dict w !! "update_num_iterations" = None ->
  self_dict w !! "_PipelinesConfig__conv_to_list" = None ->
  variables_as_iterators w =
    match values_of (self_dict w) counted_fields with
    | None =>
        (throw AttributeError,
         set_self (<["num_iterations" := VInt 1]> (self_dict w)) w)
    | Some cvs =>
        let w' := set_self (<["num_iterations" := VInt (max_len cvs)]>
                              (self_dict w)) w in
        match values_of (self_dict w) variables_list_fields with
        | None => (throw AttributeError, w')
        | Some vs =>
            match res_map (fun v => conv_to_list v (max_len cvs)) vs with
            | inl e => (inl e, w')
            | inr lists => (ok (py_zip lists), w')
            end
        end
    end.
Proof.
  intros Hupd Hconv.
  unfold variables_as_iterators, bind at 1.
  rewrite invoke_None by done. rewrite update_num_iterations_eq.
  destruct (values_of (self_dict w) counted_fields) as [cvs|]; [|done].
  cbn zeta. set (w' := set_self _ w).
  unfold bind at 1. rewrite map_m_getattr.
  assert (values_of (self_dict w') variables_list_fields
          = values_of (self_dict w) variables_list_fields) as ->.
  { apply values_of_insert_ne.
    apply (bool_decide_unpack _). vm_compute. exact I. }
  destruct (values_of (self_dict w) variables_list_fields) as [vs|]; [|done].
  unfold bind. rewrite conv_loop with (n := max_len cvs).
  - by destruct (res_map _ vs).
  - cbn. by rewrite lookup_insert_eq.
  - cbn. by rewrite lookup_insert_ne.
Qed.

(** An expansion that returns found both methods it calls. *)
Lemma variables_as_iterators_callable w z w' :
  variables_as_iterators w = (ok z, w') ->
  self_dict w !! "update_num_iterations" = None
  ∧ self_dict w !! "_PipelinesConfig__conv_to_list" = None.
Proof.
  unfold variables_as_iterators.
  intros ([] & w1 & Hupd & Hrun)%bind_ok_inv.
  apply invoke_ok_inv in Hupd as [Hu Hupd]. split; [done|].
  rewrite update_num_iterations_eq in Hupd.
  destruct (values_of (self_dict w) counted_fields) as [cvs|] eqn:Hcvs; [|done].
  injection Hupd as <-.
  apply bind_ok_inv in Hrun as (vs & w2 & Hvs & Hrun).
  rewrite map_m_getattr in Hvs. cbn [self_dict set_self] in Hvs.
  destruct (values_of _ variables_list_fields) as [vs'|] eqn:Hvs'; [|done].
  injection Hvs as <- <-.
  apply bind_ok_inv in Hrun as (lists & w3 & Hlists & _).
  destruct (self_dict w !! "_PipelinesConfig__conv_to_list") as [x|] eqn:Hx;
    [|done].
  destruct vs' as [|v vs'].
  { unfold values_of, variables_list_fields in Hvs'. apply mapM_Some in Hvs'.
    by apply Forall2_nil_inv_r in Hvs'. }
  erewrite conv_loop_shadowed in Hlists; [done| |].
  - cbn. apply lookup_insert_eq.
  - cbn. rewrite lookup_insert_ne by done. exact Hx.
Qed.

(** Both methods range over the same nine fields. *)
Ltac split_values H :=
  unfold values_of in H; apply mapM_Some in H;
  repeat match type of H with
         | Forall2 _ (_ :: _) _ =>
             let v := fresh "v" in
             let E := fresh "E" in
             apply Forall2_cons_inv_l in H as (v & ? & E & H & ->)
         | Forall2 _ [] _ => apply Forall2_nil_inv_l in H as ->
         end.

Lemma values_of_counted d vs :
  values_of d variables_list_fields = Some vs ->
  ∃ cvs, values_of d counted_fields = Some cvs
         ∧ max_len cvs = max_len vs
         ∧ length vs = 9.
Proof.
  intros H. unfold variables_list_fields in H. split_values H.
  exists [v; v0; v1; v3; v2; v6; v5; v7; v4]. split.
  - apply mapM_Some. unfold counted_fields. by repeat constructor.
  - split; [|done].
    apply Z.le_antisymm.
    + apply max_len_le; [apply max_len_ge_1|].
      repeat (apply Forall_cons_2; [apply max_len_ge; by repeat constructor|]).
      apply Forall_nil_2.
    + apply max_len_le; [apply max_len_ge_1|].
      repeat (apply Forall_cons_2; [apply max_len_ge; by repeat constructor|]).
      apply Forall_nil_2.
Qed.

Lemma values_of_listed d cvs :
  values_of d counted_fields = Some cvs ->
  ∃ vs, values_of d variables_list_fields = Some vs.
Proof.
  intros H. unfold counted_fields in H. split_values H.
  exists [v; v0; v1; v3; v2; v7; v5; v4; v6].
  apply mapM_Some. unfold variables_list_fields. by repeat constructor.
Qed.

(** The expansion of a store whose list-valued fields are not empty. *)
Lemma variables_as_iterators_ok w vs :
  self_dict w !! "update_num_iterations" = None ->
  self_dict w !! "_PipelinesConfig__conv_to_list" = None ->
  values_of (self_dict w) variables_list_fields = Some vs ->
  Forall (fun v => v ≠ VList []) vs ->
  ∃ lists,
    variables_as_iterators w
    = (ok (py_zip lists),
       set_self (<["num_iterations" := VInt (max_len vs)]> (self_dict w)) w)
    ∧ Forall2 (fun v l => conv_to_list v (max_len vs) = ok l
                          ∧ length l = Z.to_nat (max_len vs)
                          ∧ ∀ y, y ∈ l -> resolved_from v y) vs lists.
Proof.
  intros Hu Hc Hvs Hne.
  destruct (values_of_counted _ _ Hvs) as (cvs & Hcvs & Hmax & _).
  rewrite variables_as_iterators_eq, Hcvs, Hvs, Hmax by done. cbn zeta.
  destruct (res_map_ok (fun v => conv_to_list v (max_len vs))
              (fun v l => conv_to_list v (max_len vs) = ok l
                          ∧ length l = Z.to_nat (max_len vs)
                          ∧ ∀ y, y ∈ l -> resolved_from v y) vs)
    as (lists & Hlists & Hall).
  - apply Forall_forall. intros v Hv.
    rewrite Forall_forall in Hne.
    destruct (conv_to_list_ok v (max_len vs)) as (l & Hl & Hlen & Hres);
      [by apply Hne|by apply max_len_ge|].
    by exists l.
  - exists lists. by rewrite Hlists.
Qed.

Lemma res_map_conv_empty vs n :
  (1 <= n)%Z -> VList [] ∈ vs ->
  res_map (fun v => conv_to_list v n) vs = throw IndexError.
Proof.
  intros Hn. induction vs as [|v vs IH]; intros Hin.
  - by apply elem_of_nil in Hin.
  - cbn [res_map].
    destruct (conv_to_list v n) as [e|l] eqn:Hv; cbn [res_bind].
    + by apply conv_to_list_throw in Hv as [_ ->].
    + apply elem_of_cons in Hin as [<-|Hin].
      * by rewrite conv_to_list_empty in Hv.
      * by rewrite IH.
Qed.

(** The expansion of a store with an empty list among its fields. *)
Lemma variables_as_iterators_empty w vs :
  self_dict w !! "update_num_iterations" = None ->
  self_dict w !! "_PipelinesConfig__conv_to_list" = None ->
  values_of (self_dict w) variables_list_fields = Some vs ->
  VList [] ∈ vs ->
  variables_as_iterators w
  = (throw IndexError,
     set_self (<["num_iterations" := VInt (max_len vs)]> (self_dict w)) w).
Proof.
  intros Hu Hc Hvs Hin.
  destruct (values_of_counted _ _ Hvs) as (cvs & Hcvs & Hmax & _).
  rewrite variables_as_iterators_eq, Hcvs, Hvs, Hmax by done. cbn zeta.
  assert (res_map (fun v => conv_to_list v (max_len vs)) vs
          = throw IndexError) as ->; [|done].
  apply res_map_conv_empty; [apply max_len_ge_1|done].
Qed.

(** The tuples of the expansion: as many as the count, each component
    resolved from its field. *)
Lemma variables_as_iterators_tuples w vs :
  self_dict w !! "update_num_iterations" = None ->
  self_dict w !! "_PipelinesConfig__conv_to_list" = None ->
  values_of (self_dict w) variables_list_fields = Some vs ->
  Forall (fun v => v ≠ VList []) vs ->
  ∃ z tuples z',
    variables_as_iterators w
    = (ok z,
       set_self (<["num_iterations" := VInt (max_len vs)]> (self_dict w)) w)
    ∧ py_list z = (tuples, z')
    ∧ Z.of_nat (length tuples) = max_len vs
    ∧ Forall (fun t => Forall2 resolved_from vs t) tuples.
Proof.
  intros Hu Hc Hvs Hne.
  destruct (variables_as_iterators_ok w vs Hu Hc Hvs Hne)
    as (lists & Hrun & Hlists).
  destruct (values_of_counted _ _ Hvs) as (_ & _ & _ & Hnine).
  pose proof (max_len_ge_1 vs) as Hn.
  destruct (py_list_tuples (Z.to_nat (max_len vs)) lists)
    as (tuples & z' & Hlist & Hlen & Htuples).
  - apply Forall_forall. intros l Hl.
    apply list_elem_of_lookup in Hl as [k Hk].
    destruct (Forall2_lookup_r _ _ _ _ _ Hlists Hk) as (v & _ & _ & Hll & _).
    lia.
  - apply Forall2_length in Hlists as Hsame.
    destruct lists as [|l lists]; [cbn in Hsame; lia|].
    apply Exists_cons_hd.
    apply Forall2_cons_inv_r in Hlists as (v & vs' & (_ & Hll & _) & _ & _).
    done.
  - exists (py_zip lists), tuples, z'.
    split; [done|]. split; [done|]. split; [lia|].
    apply Forall_lookup. intros j t Ht. apply Htuples in Ht.
    apply Forall2_same_length_lookup_2.
    { apply Forall2_length in Hlists. apply Forall2_length in Ht. congruence. }
    intros i v x Hv Hx.
    destruct (Forall2_lookup_l _ _ _ _ _ Hlists Hv) as (l & Hl & _ & _ & Hres).
    apply Hres. apply list_elem_of_lookup. exists j.
    apply (Forall2_lookup_lr _ _ _ _ _ _ Ht Hl Hx).
Qed.

Lemma resolved_entry field x :
  well_typed field -> resolved_from field x -> is_entry x.
Proof.
  destruct field as [| | | | | |l| |]; cbn; try (by intros ? ->).
  intros Hall Hx. rewrite Forall_forall in Hall. by apply Hall.
Qed.

Lemma variables_list_fields_not_num : "num_iterations" ∉ variables_list_fields.
Proof. apply (bool_decide_unpack _). vm_compute. exact I. Qed.

(** A successful expansion had all its fields, none an empty list. *)
Lemma variables_as_iterators_ok_inv w z w' :
  variables_as_iterators w = (ok z, w') ->
  ∃ vs, values_of (self_dict w) variables_list_fields = Some vs
        ∧ Forall (fun v => v ≠ VList []) vs.
Proof.
  intros Hrun.
  destruct (variables_as_iterators_callable _ _ _ Hrun) as [Hu Hc].
  revert Hrun. rewrite variables_as_iterators_eq by done.
  destruct (values_of (self_dict w) counted_fields) as [cvs|] eqn:Hcvs; [|done].
  destruct (values_of_listed _ _ Hcvs) as [vs Hvs].
  intros Hrun. exists vs. split; [done|].
  apply Forall_forall. intros v Hv ->.
  destruct (values_of_counted _ _ Hvs) as (cvs' & Hcvs' & Hmax & _).
  assert (cvs' = cvs) as -> by congruence.
  rewrite Hvs in Hrun. cbn zeta in Hrun.
  rewrite Hmax, res_map_conv_empty in Hrun; [done|apply max_len_ge_1|done].
Qed.

(** Expanding again, right after an expansion, gives the same iterator and
    changes nothing. *)
Lemma variables_as_iterators_again w z w' :
  variables_as_iterators w = (ok z, w') ->
  variables_as_iterators w' = (ok z, w').
Proof.
  intros Hrun.
  destruct (variables_as_iterators_callable _ _ _ Hrun) as [Hu Hc].
  revert Hrun. rewrite variables_as_iterators_eq by done.
  destruct (values_of (self_dict w) counted_fields) as [cvs|] eqn:Hcvs; [|done].
  cbn zeta.
  destruct (values_of (self_dict w) variables_list_fields) as [vs|] eqn:Hvs;
    [|done].
  destruct (res_map _ vs) as [e|lists] eqn:Hlists; [done|].
  intros [= <- <-].
  rewrite variables_as_iterators_eq
    by (cbn [self_dict set_self]; by rewrite lookup_insert_ne).
  cbn [self_dict set_self].
  rewrite values_of_insert_ne by apply counted_fields_not_num.
  rewrite values_of_insert_ne by apply variables_list_fields_not_num.
  rewrite Hcvs, Hvs. cbn zeta. rewrite Hlists.
  by rewrite insert_insert_eq.
Qed.
(** ** [autoconfigure] *)

Lemma add_margin_to_size_eq size margin_percent margin_px_limit :
  add_margin_to_size size margin_percent margin_px_limit
  = (let? calc_margin := py_int (float_of_Z size * margin_percent)%float in
     ok (Z.min margin_px_limit calc_margin)).
Proof.
  unfold add_margin_to_size.
  destruct (py_int _) as [e|t]; cbn; [done|]. f_equal.
  destruct (Z.ltb_spec t margin_px_limit); lia.
Qed.

(** A loop whose body leaves the world as it is. *)
Lemma map_m_pure {A B} (f : A -> M B) l w :
  (∀ a, (f a w).2 = w) ->
  map_m f l w = (res_map (fun a => (f a w).1) l, w).
Proof.
  intros Hf. induction l as [|a l IH]; [done|].
  cbn [map_m res_map]. unfold bind at 1.
  specialize (Hf a). destruct (f a w) as [[e|b] w1]; cbn in *; subst w1;
    [done|].
  unfold bind at 1. rewrite IH. by destruct (res_map _ l).
Qed.

Lemma bind_world {A B} (m : M A) (k : A -> M B) w :
  (m w).2 = w -> (∀ a, (k a w).2 = w) -> (bind m k w).2 = w.
Proof.
  unfold bind. intros Hm Hk.
  destruct (m w) as [[e|a] w1]; cbn in *; subst w1; [done|apply Hk].
Qed.

Lemma invoke_lift_world {A} name (r : res A) w :
  (invoke name (lift r) w).2 = w.
Proof. unfold invoke. by destruct (self_dict w !! name). Qed.

(** The loop body reads the instance and stores nothing. *)
Lemma hw_group_world box_sizes clusters margin_percent margin_px_limit
    use_rect_kernel_for_small rect_kernel_threshold i w :
  (hw_group box_sizes clusters margin_percent margin_px_limit
     use_rect_kernel_for_small rect_kernel_threshold i w).2 = w.
Proof.
  unfold hw_group.
  repeat (apply bind_world;
          [first [reflexivity | apply invoke_lift_world]|intros ?]).
  reflexivity.
Qed.

Ltac bind_inv H :=
  let w1 := fresh "w" in
  let E := fresh "E" in
  apply bind_ok_inv in H as (? & w1 & E & H);
  first [ apply lift_ok_inv in E as [E ->]
        | rewrite setattr_eq in E; injection E as <-
        | apply invoke_ok_inv in E as [_ E]; apply lift_ok_inv in E as [E ->]
        | idtac ].

(** What a successful pass of the loop body computed: every padding fits
    64 bits, and the padded bounds are wrapped around. *)
Lemma hw_group_inv box_sizes clusters margin_percent margin_px_limit
    use_rect_kernel_for_small rect_kernel_threshold i w row w' :
  hw_group box_sizes clusters margin_percent margin_px_limit
    use_rect_kernel_for_small rect_kernel_threshold i w = (ok row, w') ->
  ∃ group minh maxh minw maxw tminh tmaxh tminw tmaxw,
    np_select box_sizes clusters i = ok group
    ∧ py_min group.*1 = ok minh ∧ py_max group.*1 = ok maxh
    ∧ py_min group.*2 = ok minw ∧ py_max group.*2 = ok maxw
    ∧ py_int (float_of_Z minh * margin_percent)%float = ok tminh
    ∧ py_int (float_of_Z maxh * margin_percent)%float = ok tmaxh
    ∧ py_int (float_of_Z minw * margin_percent)%float = ok tminw
    ∧ py_int (float_of_Z maxw * margin_percent)%float = ok tmaxw
    ∧ in_int64 (Z.min margin_px_limit tminh) = true
    ∧ in_int64 (Z.min margin_px_limit tmaxh) = true
    ∧ in_int64 (Z.min margin_px_limit tminw) = true
    ∧ in_int64 (Z.min margin_px_limit tmaxw) = true
    ∧ row =
        [VTuple [VInt64 (wrap64 (minh - Z.min margin_px_limit tminh));
                 VInt64 (wrap64 (maxh + Z.min margin_px_limit tmaxh))];
         VTuple [VInt64 (wrap64 (minw - Z.min margin_px_limit tminw));
                 VInt64 (wrap64 (maxw + Z.min margin_px_limit tmaxw))];
         VList (VFloat64 <$> py_sorted2
                  (float_of_Z (wrap64 (minw - Z.min margin_px_limit tminw))
                   / float_of_Z (wrap64 (minh - Z.min margin_px_limit tminh)))%float
                  (float_of_Z (wrap64 (maxw + Z.min margin_px_limit tmaxw))
                   / float_of_Z (wrap64 (maxh + Z.min margin_px_limit tmaxh)))%float);
         VStr (if use_rect_kernel_for_small
                  && (maxh <=? rect_kernel_threshold)%Z
                  && (maxw <=? rect_kernel_threshold)%Z
               then "rectangles" else "lines")].
Proof.
  unfold hw_group. intros H.
  bind_inv H. bind_inv H. bind_inv H. bind_inv H. bind_inv H.
  do 4 (bind_inv H; bind_inv H).
  injection H as <- _.
  repeat match goal with
         | E : add_margin_to_size _ _ _ = ok _ |- _ =>
             rewrite add_margin_to_size_eq in E;
             destruct (py_int _) as [?|?] eqn:?; cbn [res_bind] in E; [done|];
             injection E as <-
         end.
  repeat match goal with
         | E : np_sub _ ?m = ok _ |- _ =>
             unfold np_sub in E;
             destruct (in_int64 m) eqn:?; [|done]; injection E as <-
         | E : np_add _ ?m = ok _ |- _ =>
             unfold np_add in E;
             destruct (in_int64 m) eqn:?; [|done]; injection E as <-
         end.
  eexists _, _, _, _, _, _, _, _, _.
  repeat (split; [eassumption|]). reflexivity.
Qed.

Lemma np_column_inv rows j col :
  np_column rows j = ok col ->
  rows ≠ [] ∧ Forall2 (fun row x => seq_getitem row j = ok x) rows col.
Proof.
  destruct rows as [|row rows]; [done|].
  intros H. split; [done|]. by apply res_map_ok_inv.
Qed.

Lemma hw_group_length box_sizes clusters margin_percent margin_px_limit
    use_rect_kernel_for_small rect_kernel_threshold i w row w' :
  hw_group box_sizes clusters margin_percent margin_px_limit
    use_rect_kernel_for_small rect_kernel_threshold i w = (ok row, w') ->
  length row = 4.
Proof.
  intros H. apply hw_group_inv in H.
  by destruct H as (?&?&?&?&?&?&?&?&?&_&_&_&_&_&_&_&_&_&_&_&_&_&->).
Qed.

Lemma np_asarray_ok box_sizes arr :
  np_asarray box_sizes = ok arr ->
  arr = box_sizes
  ∧ ∀ p, p ∈ box_sizes -> in_int64 p.1 = true ∧ in_int64 p.2 = true.
Proof.
  unfold np_asarray.
  destruct (forallb _ box_sizes) eqn:Hall; [|done]. intros [= <-].
  split; [done|]. intros p Hp.
  rewrite forallb_forall in Hall. apply andb_true_iff, Hall.
  by apply list_elem_of_In.
Qed.

Lemma np_labels_ok labels clusters :
  np_labels labels = ok clusters ->
  clusters = labels ∧ ∀ c, c ∈ labels -> in_int64 c = true.
Proof.
  unfold np_labels.
  destruct (forallb _ labels) eqn:Hall; [|done]. intros [= <-].
  split; [done|]. intros c Hc.
  rewrite forallb_forall in Hall. apply Hall. by apply list_elem_of_In.
Qed.

(** The rows of a loop that ended normally. *)
Lemma hw_rows box_sizes clusters margin_percent margin_px_limit
    use_rect_kernel_for_small rect_kernel_threshold labels rows w :
  res_map (fun i =>
             (hw_group box_sizes clusters margin_percent margin_px_limit
                use_rect_kernel_for_small rect_kernel_threshold i w).1)
          labels = ok rows ->
  Forall2 (fun i row =>
             hw_group box_sizes clusters margin_percent margin_px_limit
               use_rect_kernel_for_small rect_kernel_threshold i w
             = (ok row, w)) labels rows.
Proof.
  intros Hrows. apply res_map_ok_inv in Hrows.
  eapply Forall2_impl; [exact Hrows|]. intros i row Hi. cbv beta in Hi.
  pose proof (hw_group_world box_sizes clusters margin_percent margin_px_limit
                use_rect_kernel_for_small rect_kernel_threshold i w) as Hw.
  destruct (hw_group _ _ _ _ _ _ i w) as [r w2].
  cbn [fst snd] in *. by subst.
Qed.

(** What a successful calibration computed and stored. *)
Lemma autoconfigure_inv box_sizes epsilon margin_percent margin_px_limit
    use_rect_kernel_for_small rect_kernel_threshold w w' :
  autoconfigure box_sizes epsilon margin_percent margin_px_limit
    use_rect_kernel_for_small rect_kernel_threshold w = (ok tt, w') ->
  ∃ clusters top rows heights widths ratios kernels,
    fit_predict epsilon box_sizes = ok clusters
    ∧ (∀ p, p ∈ box_sizes -> in_int64 p.1 = true ∧ in_int64 p.2 = true)
    ∧ py_max clusters = ok top
    ∧ Forall2 (fun i row =>
                 hw_group box_sizes clusters margin_percent margin_px_limit
                   use_rect_kernel_for_small rect_kernel_threshold i w
                 = (ok row, w))
              (py_range 0 (top + 1)) rows
    ∧ np_column rows 0 = ok heights ∧ np_column rows 1 = ok widths
    ∧ np_column rows 2 = ok ratios ∧ np_column rows 3 = ok kernels
    ∧ self_dict w !! "update_num_iterations" = None
    ∧ update_num_iterations
        (set_self (<["morph_kernels_type" := VList kernels]>
                     (<["wh_ratio_range" := VList ratios]>
                        (<["height_range" := VList heights]>
                           (<["width_range" := VList widths]> (self_dict w)))))
                  w)
      = (ok tt, w').
Proof.
  unfold autoconfigure. intros H.
  bind_inv H. bind_inv H. bind_inv H. bind_inv H.
  apply bind_ok_inv in H as (rows & w1 & Hrows & H).
  rewrite map_m_pure in Hrows by (intros; apply hw_group_world).
  injection Hrows as Hrows <-.
  bind_inv H. bind_inv H. bind_inv H. bind_inv H.
  bind_inv H. bind_inv H. bind_inv H. bind_inv H.
  apply invoke_ok_inv in H as [Hupd H].
  cbn [self_dict set_self] in Hupd.
  rewrite !lookup_insert_ne in Hupd by done.
  match goal with
  | E : res_bind (fit_predict _ _) _ = ok _ |- _ =>
      destruct (fit_predict epsilon box_sizes) as [?|labels] eqn:Hfit;
      cbn [res_bind] in E; [done|];
      apply np_labels_ok in E as [-> Hlabels]
  end.
  match goal with
  | E : np_asarray _ = ok _ |- _ => apply np_asarray_ok in E as [-> Hsizes]
  end.
  match goal with
  | E : np_add _ 1 = ok _ |- _ =>
      unfold np_add in E; cbn [in_int64] in E; injection E as <-
  end.
  match goal with
  | E : py_max _ = ok ?t |- _ => rename t into top; rename E into Htop
  end.
  assert (wrap64 (top + 1) = top + 1)%Z as Hstop.
  { apply py_max_spec in Htop as [Hin _]. apply Hlabels in Hin.
    apply in_int64_spec in Hin.
    destruct (decide (top + 1 < 2 ^ 63)%Z) as [Hlt|Hge];
      [apply wrap64_id; lia|].
    assert (top + 1 = 2 ^ 63)%Z as Htop1 by lia.
    rewrite Htop1 in Hrows. vm_compute in Hrows. injection Hrows as <-.
    match goal with E : np_column [] _ = ok _ |- _ => discriminate E end. }
  rewrite Hstop in Hrows.
  exists labels, top, rows.
  do 4 eexists. split; [done|]. split; [done|]. split; [done|].
  split; [by apply hw_rows|].
  repeat (split; [eassumption|]). exact H.
Qed.

Lemma update_num_iterations_ok_inv w w' :
  update_num_iterations w = (ok tt, w') ->
  ∃ cvs, values_of (self_dict w) counted_fields = Some cvs
         ∧ w' = set_self (<["num_iterations" := VInt (max_len cvs)]>
                            (self_dict w)) w.
Proof.
  rewrite update_num_iterations_eq.
  destruct (values_of (self_dict w) counted_fields) as [cvs|]; [|done].
  intros [= <-]. by exists cvs.
Qed.

(** The entries that a successful calibration stored for each label. *)
Lemma autoconfigure_groups box_sizes epsilon margin_percent margin_px_limit
    use_rect_kernel_for_small rect_kernel_threshold w w' :
  autoconfigure box_sizes epsilon margin_percent margin_px_limit
    use_rect_kernel_for_small rect_kernel_threshold w = (ok tt, w') ->
  ∃ clusters top heights widths ratios kernels,
    fit_predict epsilon box_sizes = ok clusters
    ∧ py_max clusters = ok top
    ∧ (0 <= top)%Z
    ∧ self_dict w' !! "height_range" = Some (VList heights)
    ∧ self_dict w' !! "width_range" = Some (VList widths)
    ∧ self_dict w' !! "wh_ratio_range" = Some (VList ratios)
    ∧ self_dict w' !! "morph_kernels_type" = Some (VList kernels)
    ∧ length heights = Z.to_nat (top + 1)
    ∧ length widths = Z.to_nat (top + 1)
    ∧ length ratios = Z.to_nat (top + 1)
    ∧ length kernels = Z.to_nat (top + 1)
    ∧ ∀ i, (0 <= i <= top)%Z ->
        ∃ h wd r k,
          hw_group box_sizes clusters margin_percent margin_px_limit
            use_rect_kernel_for_small rect_kernel_threshold i w
          = (ok [h; wd; r; k], w)
          ∧ heights !! Z.to_nat i = Some h
          ∧ widths !! Z.to_nat i = Some wd
          ∧ ratios !! Z.to_nat i = Some r
          ∧ kernels !! Z.to_nat i = Some k.
Proof.
  intros H. apply autoconfigure_inv in H
    as (clusters & top & rows & heights & widths & ratios & kernels
        & Hfit & _ & Htop & Hrows & Hh & Hw & Hr & Hk & _ & Hupd).
  apply update_num_iterations_ok_inv in Hupd as (cvs & _ & ->).
  apply np_column_inv in Hh as [Hne Hh].
  apply np_column_inv in Hw as [_ Hw].
  apply np_column_inv in Hr as [_ Hr].
  apply np_column_inv in Hk as [_ Hk].
  pose proof (Forall2_length _ _ _ Hrows) as Hlen.
  unfold py_range in Hlen, Hrows. rewrite length_seqZ in Hlen.
  assert (0 <= top)%Z as Hpos.
  { destruct rows; [done|]. cbn in Hlen. lia. }
  exists clusters, top, heights, widths, ratios, kernels.
  cbn [self_dict set_self].
  repeat (rewrite lookup_insert_ne by done).
  rewrite !lookup_insert_eq.
  repeat (rewrite lookup_insert_ne by done).
  rewrite !lookup_insert_eq.
  repeat (rewrite lookup_insert_ne by done).
  rewrite !lookup_insert_eq.
  repeat (rewrite lookup_insert_ne by done).
  rewrite !lookup_insert_eq.
  apply Forall2_length in Hh as Hlh. apply Forall2_length in Hw as Hlw.
  apply Forall2_length in Hr as Hlr. apply Forall2_length in Hk as Hlk.
  repeat (split; [done || lia|]).
  intros i Hi.
  assert (seqZ 0 (top + 1 - 0) !! Z.to_nat i = Some i) as Hidx.
  { rewrite lookup_seqZ_lt by lia. f_equal. lia. }
  destruct (Forall2_lookup_l _ _ _ _ _ Hrows Hidx) as (row & Hrow & Hgrp).
  pose proof (hw_group_length _ _ _ _ _ _ _ _ _ _ Hgrp) as Hrl.
  destruct row as [|h [|wd [|r [|k [|? ?]]]]]; try done.
  exists h, wd, r, k. split; [done|].
  destruct (Forall2_lookup_l _ _ _ _ _ Hh Hrow) as (? & -> & [= <-]).
  destruct (Forall2_lookup_l _ _ _ _ _ Hw Hrow) as (? & -> & [= <-]).
  destruct (Forall2_lookup_l _ _ _ _ _ Hr Hrow) as (? & -> & [= <-]).
  destruct (Forall2_lookup_l _ _ _ _ _ Hk Hrow) as (? & -> & [= <-]).
  done.
Qed.

(** Calibration on an empty sample raises before anything is stored. *)
Lemma autoconfigure_empty epsilon margin_percent margin_px_limit
    use_rect_kernel_for_small rect_kernel_threshold w :
  ∃ e, autoconfigure [] epsilon margin_percent margin_px_limit
         use_rect_kernel_for_small rect_kernel_threshold w = (throw e, w).
Proof.
  unfold autoconfigure, bind at 1, lift at 1.
  destruct (fit_predict epsilon []) as [e|labels]; cbn [res_bind];
    [by exists e|].
  destruct (np_labels labels) as [e|clusters]; [by exists e|].
  unfold bind at 1, lift at 1. cbn [np_asarray forallb].
  unfold bind at 1, lift at 1.
  destruct clusters as [|c cs]; [by exists ValueError|].
  destruct (py_max (c :: cs)) as [e|top]; [by exists e|].
  unfold bind at 1, lift at 1.
  destruct (np_add top 1) as [e|stop]; [by exists e|].
  unfold bind at 1.
  destruct (py_range 0 stop) as [|i range].
  - by exists IndexError.
  - by exists IndexError.
Qed.

(** The four entries that a successful calibration stored for the label
    [i], from the bounds of the points with that label. *)
Lemma autoconfigure_entries box_sizes epsilon margin_percent margin_px_limit
    use_rect_kernel_for_small rect_kernel_threshold w w' :
  autoconfigure box_sizes epsilon margin_percent margin_px_limit
    use_rect_kernel_for_small rect_kernel_threshold w = (ok tt, w') ->
  ∃ clusters top heights widths ratios kernels,
    fit_predict epsilon box_sizes = ok clusters
    ∧ py_max clusters = ok top
    ∧ self_dict w' !! "height_range" = Some (VList heights)
    ∧ self_dict w' !! "width_range" = Some (VList widths)
    ∧ self_dict w' !! "wh_ratio_range" = Some (VList ratios)
    ∧ self_dict w' !! "morph_kernels_type" = Some (VList kernels)
    ∧ ∀ i, (0 <= i <= top)%Z ->
        ∃ group minh maxh minw maxw tminh tmaxh tminw tmaxw,
          np_select box_sizes clusters i = ok group
          ∧ py_min group.*1 = ok minh ∧ py_max group.*1 = ok maxh
          ∧ py_min group.*2 = ok minw ∧ py_max group.*2 = ok maxw
          ∧ py_int (float_of_Z minh * margin_percent)%float = ok tminh
          ∧ py_int (float_of_Z maxh * margin_percent)%float = ok tmaxh
          ∧ py_int (float_of_Z minw * margin_percent)%float = ok tminw
          ∧ py_int (float_of_Z maxw * margin_percent)%float = ok tmaxw
          ∧ in_int64 (Z.min margin_px_limit tminh) = true
          ∧ in_int64 (Z.min margin_px_limit tmaxh) = true
          ∧ in_int64 (Z.min margin_px_limit tminw) = true
          ∧ in_int64 (Z.min margin_px_limit tmaxw) = true
          ∧ heights !! Z.to_nat i
            = Some (VTuple
                      [VInt64 (wrap64 (minh - Z.min margin_px_limit tminh));
                       VInt64 (wrap64 (maxh + Z.min margin_px_limit tmaxh))])
          ∧ widths !! Z.to_nat i
            = Some (VTuple
                      [VInt64 (wrap64 (minw - Z.min margin_px_limit tminw));
                       VInt64 (wrap64 (maxw + Z.min margin_px_limit tmaxw))])
          ∧ ratios !! Z.to_nat i
            = Some (VList (VFloat64 <$> py_sorted2
                      (float_of_Z (wrap64 (minw - Z.min margin_px_limit tminw))
                       / float_of_Z
                           (wrap64 (minh - Z.min margin_px_limit tminh)))%float
                      (float_of_Z (wrap64 (maxw + Z.min margin_px_limit tmaxw))
                       / float_of_Z
                           (wrap64 (maxh + Z.min margin_px_limit tmaxh)))%float))
          ∧ kernels !! Z.to_nat i
            = Some (VStr (if use_rect_kernel_for_small
                             && (maxh <=? rect_kernel_threshold)%Z
                             && (maxw <=? rect_kernel_threshold)%Z
                          then "rectangles" else "lines")).
Proof.
  intros H. apply autoconfigure_groups in H
    as (clusters & top & heights & widths & ratios & kernels
        & Hfit & Htop & _ & Hh & Hw & Hr & Hk & _ & _ & _ & _ & Hgroups).
  exists clusters, top, heights, widths, ratios, kernels.
  repeat (split; [assumption|]).
  intros i Hi.
  destruct (Hgroups i Hi) as (h & wd & r & k & Hrow & Hhi & Hwi & Hri & Hki).
  apply hw_group_inv in Hrow
    as (group & minh & maxh & minw & maxw & tminh & tmaxh & tminw & tmaxw
        & ? & ? & ? & ? & ? & ? & ? & ? & ? & ? & ? & ? & ?
        & [= -> -> -> ->]).
  exists group, minh, maxh, minw, maxw, tminh, tmaxh, tminw, tmaxw.
  repeat (split; [assumption|]). assumption.
Qed.

(** The sizes of a calibrated sample fit 64 bits. *)
Lemma autoconfigure_sizes box_sizes epsilon margin_percent margin_px_limit
    use_rect_kernel_for_small rect_kernel_threshold w w' :
  autoconfigure box_sizes epsilon margin_percent margin_px_limit
    use_rect_kernel_for_small rect_kernel_threshold w = (ok tt, w') ->
  ∀ p, p ∈ box_sizes -> in_int64 p.1 = true ∧ in_int64 p.2 = true.
Proof.
  intros H. apply autoconfigure_inv in H
    as (clusters & top & rows & heights & widths & ratios & kernels
        & _ & Hsizes & _).
  exact Hsizes.
Qed.


(** ** [save_yaml] and [load_yaml] *)

Lemma save_yaml_eq path w :
  save_yaml path w =
    if decide (path ∈ unwritable w) then (throw OSError, w)
    else (ok tt,
          World (self_dict w)
                (<[path := yaml_dump (saved_dict (self_dict w))]> (files w))
                (unwritable w) (stdout w)).
Proof. reflexivity. Qed.

(** One pass of the loop of [load_yaml]: the warning, if any, is printed
    before the attribute is set. *)
Lemma load_step suppress_warnings key v w :
  (let* known := has_key key in
   (if negb suppress_warnings && negb known
    then print ("WARNING: Loaded variable '" +:+ key +:+
                "' which was not previously present in the config.")
    else ret tt) ;;
   py_setattr key v) w
  = py_setattr key v
      (World (self_dict w) (files w) (unwritable w)
             (stdout w ++ if suppress_warnings then []
                          else if bool_decide (key ∈ dom (self_dict w))
                               then [] else [warning key])).
Proof.
  unfold bind at 1, has_key at 1.
  destruct suppress_warnings; cbn [negb andb].
  - unfold bind at 1, ret at 1. rewrite app_nil_r. by destruct w.
  - destruct (bool_decide (key ∈ dom (self_dict w))); cbn [negb].
    + unfold bind at 1, ret at 1. rewrite app_nil_r. by destruct w.
    + by unfold bind at 1, print at 1.
Qed.

(** The loop of [load_yaml] sets the items in their order and prints a
    warning for each key that is new when its turn comes. *)
Lemma load_loop suppress_warnings items : ∀ w,
  Forall (fun kv => kv.1 ∉ reserved_names) items ->
  for_each items (fun '(key, v) =>
    let* known := has_key key in
    (if negb suppress_warnings && negb known
     then print ("WARNING: Loaded variable '" +:+ key +:+
                 "' which was not previously present in the config.")
     else ret tt) ;;
    py_setattr key v) w
  = (ok tt,
     World (foldl (fun d kv => <[kv.1 := kv.2]> d) (self_dict w) items)
           (files w) (unwritable w)
           (stdout w ++ if suppress_warnings then []
                        else warning <$> new_keys (self_dict w) items)).
Proof.
  induction items as [|[key v] items IH]; intros w Hres.
  - cbn. destruct suppress_warnings; rewrite app_nil_r; by destruct w.
  - apply Forall_cons in Hres as [Hkey Hres].
    cbn [for_each foldl new_keys]. unfold bind at 1.
    rewrite load_step, py_setattr_eq by done.
    rewrite IH by done. cbn [self_dict files unwritable stdout set_self fst snd].
    do 2 f_equal. rewrite <- app_assoc. f_equal.
    destruct suppress_warnings; [done|]. rewrite fmap_app.
    by destruct (bool_decide (key ∈ dom (self_dict w))).
Qed.

(** A loop that ends normally met no reserved name. *)
Lemma load_loop_ok_inv suppress_warnings items : ∀ w w',
  for_each items (fun '(key, v) =>
    let* known := has_key key in
    (if negb suppress_warnings && negb known
     then print ("WARNING: Loaded variable '" +:+ key +:+
                 "' which was not previously present in the config.")
     else ret tt) ;;
    py_setattr key v) w
  = (ok tt, w') ->
  Forall (fun kv => kv.1 ∉ reserved_names) items.
Proof.
  induction items as [|[key v] items IH]; intros w w'; [constructor|].
  cbn [for_each]. unfold bind at 1. rewrite load_step.
  destruct (decide (key ∈ reserved_names)) as [Hin|Hout].
  - edestruct (py_setattr_reserved key v) as [e ->]; [done|]. done.
  - rewrite py_setattr_eq by done. intros H.
    constructor; [done|]. by eapply IH.
Qed.

Lemma lookup_foldl_insert_ne (items : list (string * value)) (k : string) :
  ∀ d : gmap string value,
  k ∉ items.*1 ->
  foldl (fun d kv => <[kv.1 := kv.2]> d) d items !! k = d !! k.
Proof.
  induction items as [|[k0 v0] items IH]; intros d Hk; [done|].
  rewrite fmap_cons in Hk. apply not_elem_of_cons in Hk as [Hne Hk].
  cbn [foldl]. rewrite IH by done. cbn [fst snd].
  by rewrite lookup_insert_ne.
Qed.

Lemma lookup_foldl_insert (items : list (string * value)) (k : string) :
  ∀ d : gmap string value,
  NoDup items.*1 ->
  foldl (fun d kv => <[kv.1 := kv.2]> d) d items !! k
  = match (list_to_map items : gmap string value) !! k with
    | Some v => Some v
    | None => d !! k
    end.
Proof.
  induction items as [|[k0 v0] items IH]; intros d Hnd; [done|].
  rewrite fmap_cons in Hnd. apply NoDup_cons in Hnd as [Hk0 Hnd].
  cbn [foldl]. rewrite list_to_map_cons.
  rewrite IH by done. cbn [fst snd].
  destruct (decide (k = k0)) as [->|Hne].
  - rewrite !lookup_insert_eq.
    by rewrite (not_elem_of_list_to_map_1 _ _ Hk0).
  - by rewrite !lookup_insert_ne.
Qed.

Lemma foldl_insert_extends (items : list (string * value)) :
  ∀ d : gmap string value,
  extends d (foldl (fun d kv => <[kv.1 := kv.2]> d) d items).
Proof.
  induction items as [|[k0 v0] items IH]; intros d name Hname; [done|].
  cbn [foldl]. apply IH. cbn. rewrite lookup_insert_is_Some.
  destruct (decide (k0 = name)); auto.
Qed.

(** What [load_yaml] does once the file is read. *)
Lemma load_yaml_eq path suppress_warnings w file items :
  files w !! path = Some file ->
  yaml_load file = ok items ->
  Forall (fun kv => kv.1 ∉ reserved_names) items ->
  load_yaml path suppress_warnings w
  = invoke "update_num_iterations" update_num_iterations
      (World (foldl (fun d kv => <[kv.1 := kv.2]> d) (self_dict w) items)
             (files w) (unwritable w)
             (stdout w ++ if suppress_warnings then []
                          else warning <$> new_keys (self_dict w) items)).
Proof.
  intros Hfile Hitems Hres.
  unfold load_yaml, bind at 1, read_file at 1. rewrite Hfile.
  unfold bind at 1, lift at 1. rewrite Hitems.
  unfold bind at 1. by rewrite load_loop.
Qed.

Lemma load_yaml_inv path suppress_warnings w w' :
  load_yaml path suppress_warnings w = (ok tt, w') ->
  ∃ file items,
    files w !! path = Some file
    ∧ yaml_load file = ok items
    ∧ Forall (fun kv => kv.1 ∉ reserved_names) items
    ∧ foldl (fun d kv => <[kv.1 := kv.2]> d) (self_dict w) items
        !! "update_num_iterations" = None
    ∧ update_num_iterations
        (World (foldl (fun d kv => <[kv.1 := kv.2]> d) (self_dict w) items)
               (files w) (unwritable w)
               (stdout w ++ if suppress_warnings then []
                            else warning <$> new_keys (self_dict w) items))
      = (ok tt, w').
Proof.
  intros H. pose proof H as H0. revert H.
  unfold load_yaml, bind at 1, read_file at 1.
  destruct (files w !! path) as [file|] eqn:Hfile; [|done].
  unfold bind at 1, lift at 1.
  destruct (yaml_load file) as [e|items] eqn:Hitems; [done|].
  intros ([] & w1 & Hloop & _)%bind_ok_inv.
  apply load_loop_ok_inv in Hloop.
  rewrite (load_yaml_eq _ _ _ _ _ Hfile Hitems Hloop) in H0.
  apply invoke_ok_inv in H0 as [Hupd H0].
  by exists file, items.
Qed.

Lemma values_of_extends d d' names vs :
  values_of d names = Some vs -> extends d d' ->
  ∃ vs', values_of d' names = Some vs'.
Proof.
  unfold values_of. intros Hvs Hext.
  apply (mapM_is_Some_2 (fun name => d' !! name) names).
  apply mapM_Some in Hvs. apply Forall_forall. intros name Hname.
  apply list_elem_of_lookup in Hname as [i Hi].
  destruct (Forall2_lookup_l _ _ _ _ _ Hvs Hi) as (v & _ & Hv).
  cbn. apply Hext. by exists v.
Qed.

(** [load_yaml] on an instance that has the counted fields, from a file
    whose keys can be set and leave [update_num_iterations] callable. *)
Lemma load_yaml_run path suppress_warnings w file items cvs :
  files w !! path = Some file ->
  yaml_load file = ok items ->
  values_of (self_dict w) counted_fields = Some cvs ->
  Forall (fun kv => kv.1 ∉ reserved_names) items ->
  "update_num_iterations" ∉ items.*1 ->
  self_dict w !! "update_num_iterations" = None ->
  ∃ cvs',
    values_of (foldl (fun d kv => <[kv.1 := kv.2]> d) (self_dict w) items)
      counted_fields = Some cvs'
    ∧ load_yaml path suppress_warnings w
      = (ok tt,
         World (<["num_iterations" := VInt (max_len cvs')]>
                  (foldl (fun d kv => <[kv.1 := kv.2]> d) (self_dict w) items))
               (files w) (unwritable w)
               (stdout w ++ if suppress_warnings then []
                            else warning <$> new_keys (self_dict w) items)).
Proof.
  intros Hfile Hitems Hcvs Hres Hkeys Hupd.
  destruct (values_of_extends _ _ _ _ Hcvs
              (foldl_insert_extends items (self_dict w))) as [cvs' Hcvs'].
  exists cvs'. split; [done|].
  rewrite (load_yaml_eq _ _ _ _ _ Hfile Hitems Hres).
  rewrite invoke_None
    by (cbn [self_dict]; by rewrite lookup_foldl_insert_ne).
  rewrite update_num_iterations_eq. cbn [self_dict]. by rewrite Hcvs'.
Qed.

(** [load_yaml] raises, and changes nothing, when the file is missing or
    is not a mapping. *)
Lemma load_yaml_throw path suppress_warnings w :
  (files w !! path = None ->
   load_yaml path suppress_warnings w = (throw OSError, w))
  ∧ (∀ file e, files w !! path = Some file -> yaml_load file = throw e ->
               load_yaml path suppress_warnings w = (throw e, w)).
Proof.
  split.
  - intros Hfile. unfold load_yaml, bind at 1, read_file at 1.
    by rewrite Hfile.
  - intros file e Hfile He. unfold load_yaml, bind at 1, read_file at 1.
    rewrite Hfile. unfold bind at 1, lift at 1. by rewrite He.
Qed.

(** ** The invariants of reachable instances *)

Lemma update_num_iterations_consistent w w' :
  update_num_iterations w = (ok tt, w') ->
  consistent (self_dict w') ∧ extends (self_dict w) (self_dict w')
  ∧ files w' = files w ∧ unwritable w' = unwritable w
  ∧ ∀ name, name ≠ "num_iterations" ->
            self_dict w' !! name = self_dict w !! name.
Proof.
  intros (cvs & Hcvs & ->)%update_num_iterations_ok_inv.
  split; [|split; [|split; [done|split; [done|]]]].
  - exists cvs. cbn [self_dict set_self]. rewrite lookup_insert_eq.
    by rewrite values_of_insert_ne by apply counted_fields_not_num.
  - intros name Hname. cbn [self_dict set_self]. rewrite lookup_insert_is_Some.
    destruct (decide ("num_iterations" = name)); auto.
  - intros name Hname. cbn [self_dict set_self]. by rewrite lookup_insert_ne.
Qed.

Lemma extends_trans d1 d2 d3 : extends d1 d2 -> extends d2 d3 -> extends d1 d3.
Proof. intros H12 H23 name Hname. auto. Qed.

Lemma extends_insert d name v : extends d (<[name := v]> d).
Proof.
  intros k Hk. rewrite lookup_insert_is_Some.
  destruct (decide (name = k)); auto.
Qed.

Lemma complete_extends d d' : complete d -> extends d d' -> complete d'.
Proof.
  unfold complete. intros Hd Hext.
  eapply Forall_impl; [exact Hd|]. intros name. apply Hext.
Qed.

(** A load that returns leaves [update_num_iterations] callable. *)
Lemma load_yaml_consistent path suppress_warnings w w' :
  load_yaml path suppress_warnings w = (ok tt, w') ->
  consistent (self_dict w') ∧ extends (self_dict w) (self_dict w')
  ∧ self_dict w' !! "update_num_iterations" = None.
Proof.
  intros (file & items & _ & _ & _ & Hnone & Hupd)%load_yaml_inv.
  apply update_num_iterations_consistent in Hupd as (Hc & Hext & _ & _ & Hsame).
  split; [done|]. split.
  - eapply extends_trans; [|exact Hext]. apply foldl_insert_extends.
  - by rewrite Hsame.
Qed.

Lemma autoconfigure_consistent box_sizes epsilon margin_percent
    margin_px_limit use_rect_kernel_for_small rect_kernel_threshold w w' :
  autoconfigure box_sizes epsilon margin_percent margin_px_limit
    use_rect_kernel_for_small rect_kernel_threshold w = (ok tt, w') ->
  consistent (self_dict w') ∧ extends (self_dict w) (self_dict w')
  ∧ self_dict w' !! "update_num_iterations" = None.
Proof.
  intros H. apply autoconfigure_inv in H
    as (clusters & top & rows & heights & widths & ratios & kernels
        & _ & _ & _ & _ & _ & _ & _ & _ & Hnone & Hupd).
  apply update_num_iterations_consistent in Hupd as (Hc & Hext & _ & _ & Hsame).
  split; [done|]. split.
  - eapply extends_trans; [|exact Hext]. cbn.
    repeat (eapply extends_trans; [|apply extends_insert]).
    by intros name.
  - rewrite Hsame by done. cbn [self_dict set_self].
    by rewrite !lookup_insert_ne.
Qed.

(** [__init__] stores the defaults, loads if a path is given, and
    counts. *)
Lemma init_eq yaml_path w :
  __init__ yaml_path w =
    (match yaml_path with
     | Some path =>
         if bool_decide (path = "") then ret tt
         else invoke "load_yaml" (load_yaml path false)
     | None => ret tt
     end ;; invoke "update_num_iterations" update_num_iterations)
      (set_self (with_defaults (self_dict w)) w).
Proof.
  unfold __init__.
  do 11 (erewrite bind_ok by apply setattr_eq).
  erewrite bind_ok.
  2:{ apply getattr_Some. cbn [self_dict set_self].
      repeat (rewrite lookup_insert_ne by done). apply lookup_insert_eq. }
  unfold bind at 1, lift at 1.
  change (py_getitem (VList [VTuple [VInt 40; VInt 50]]) 0)
    with (ok (VTuple [VInt 40; VInt 50]) : res value).
  unfold bind at 1, lift at 1.
  change (py_getitem (VTuple [VInt 40; VInt 50]) 0)
    with (ok (VInt 40) : res value).
  unfold bind at 1, lift at 1.
  change (py_mul_int (VInt 40) 2) with (ok (VInt 80) : res value).
  cbv beta iota.
  erewrite bind_ok by apply setattr_eq. reflexivity.
Qed.

Lemma with_defaults_complete d : complete (with_defaults d).
Proof.
  unfold complete, recognized_fields, with_defaults.
  repeat (apply Forall_cons_2;
          [rewrite !lookup_insert_is_Some';
           repeat first [left; reflexivity | right]|]).
  apply Forall_nil_2.
Qed.

Lemma with_defaults_lookup_None d key :
  with_defaults d !! key = None
  ↔ (key ∉ recognized_fields) ∧ d !! key = None.
Proof.
  clear yaml_dump yaml_load fit_predict File.
  unfold with_defaults, recognized_fields.
  rewrite !lookup_insert_None, !not_elem_of_cons.
  pose proof (not_elem_of_nil key).
  split; intros Hall; decompose [and] Hall; repeat split;
    try assumption; congruence.
Qed.

(** A new instance has no attribute with the name of a method. *)
Lemma defaults_unshadowed name :
  name ∉ recognized_fields -> with_defaults ∅ !! name = None.
Proof. intros Hname. by apply with_defaults_lookup_None. Qed.

Lemma new_consistent yaml_path w0 w' :
  new yaml_path w0 = (ok tt, w') ->
  consistent (self_dict w') ∧ complete (self_dict w')
  ∧ self_dict w' !! "update_num_iterations" = None.
Proof.
  unfold new. rewrite init_eq.
  intros ([] & w1 & Hload & Hupd)%bind_ok_inv.
  apply invoke_ok_inv in Hupd as [Hnone Hupd].
  apply update_num_iterations_consistent in Hupd as (Hc & Hext & _ & _ & Hsame).
  split; [done|]. split; [|by rewrite Hsame].
  eapply complete_extends; [|exact Hext].
  eapply complete_extends; [apply (with_defaults_complete ∅)|].
  cbn [self_dict set_self] in Hload.
  destruct yaml_path as [path|].
  - destruct (bool_decide (path = "")).
    + unfold ret in Hload. injection Hload as <-. by intros name.
    + apply invoke_ok_inv in Hload as [_ Hload].
      by apply load_yaml_consistent in Hload as (_ & Hl & _).
  - unfold ret in Hload. injection Hload as <-. by intros name.
Qed.

(** Every reachable instance has all the recognized parameters, a count
    that agrees with them, and a callable [update_num_iterations]. *)
Lemma reachable_invariants w :
  reachable w ->
  consistent (self_dict w) ∧ complete (self_dict w)
  ∧ self_dict w !! "update_num_iterations" = None.
Proof.
  induction 1 as [yaml_path w0 Hok
                 |w bs eps mp lim use thr _ (IHc & IHk & IHu) Hok
                 |w path sw _ (IHc & IHk & IHu) Hok
                 |w path _ (IHc & IHk & IHu) Hok].
  - apply (new_consistent yaml_path w0).
    destruct (new yaml_path w0) as [r w']. cbn in Hok. by subst r.
  - destruct (invoke "autoconfigure" (autoconfigure bs eps mp lim use thr) w)
      as [r w'] eqn:Hrun.
    cbn in Hok. subst r. cbn.
    apply invoke_ok_inv in Hrun as [_ Hrun].
    apply autoconfigure_consistent in Hrun as (Hc & Hext & Hu).
    split; [done|]. split; [by eapply complete_extends|done].
  - destruct (invoke "load_yaml" (load_yaml path sw) w) as [r w'] eqn:Hrun.
    cbn in Hok. subst r. cbn.
    apply invoke_ok_inv in Hrun as [_ Hrun].
    apply load_yaml_consistent in Hrun as (Hc & Hext & Hu).
    split; [done|]. split; [by eapply complete_extends|done].
  - destruct (invoke "save_yaml" (save_yaml path) w) as [r w'] eqn:Hrun.
    cbn in Hok. subst r. cbn.
    apply invoke_ok_inv in Hrun as [_ Hrun].
    rewrite save_yaml_eq in Hrun.
    destruct (decide (path ∈ unwritable w)); [done|]. by injection Hrun as <-.
Qed.

Lemma reachable_consistent w :
  reachable w -> consistent (self_dict w) ∧ complete (self_dict w).
Proof. intros (? & ? & _)%reachable_invariants. done. Qed.

Lemma recognized_saved :
  Forall (fun name => saved_key name = true)
         ("num_iterations" :: recognized_fields ++ counted_fields).
Proof. apply (bool_decide_unpack _). vm_compute. exact I. Qed.

Lemma saved_dict_lookup (d : gmap string value) key :
  saved_dict d !! key = if String.prefix "__" key then None else d !! key.
Proof.
  clear yaml_dump yaml_load fit_predict File.
  unfold saved_dict. destruct (String.prefix "__" key) eqn:Hp.
  - apply map_lookup_filter_None. right. intros v _. cbn.
    unfold saved_key. by rewrite Hp.
  - destruct (d !! key) as [v|] eqn:Hv.
    + apply map_lookup_filter_Some. split; [done|]. cbn.
      unfold saved_key, callable_key. by rewrite Hp.
    + apply map_lookup_filter_None. by left.
Qed.

(** The keys of the items read back from a saved dictionary. *)
Lemma saved_items_keys (d : gmap string value) items key :
  list_to_map items = saved_dict d ->
  key ∈ items.*1 ↔ String.prefix "__" key = false ∧ is_Some (d !! key).
Proof.
  clear yaml_dump yaml_load fit_predict File.
  intros Hmap.
  rewrite <- (elem_of_list_to_set (C := gset string)).
  rewrite <- (dom_list_to_map_L (M := gmap string)).
  rewrite elem_of_dom, Hmap, saved_dict_lookup.
  destruct (String.prefix "__" key).
  - split; [by intros [? ?]|by intros [? _]].
  - split; [by intros ?|by intros [_ ?]].
Qed.

(** No saved key is a reserved name. *)
Lemma saved_items_loadable (d : gmap string value) items :
  list_to_map items = saved_dict d ->
  Forall (fun kv : string * value => kv.1 ∉ reserved_names) items.
Proof.
  clear yaml_dump yaml_load fit_predict File.
  intros Hmap. apply Forall_forall. intros [key v] Hin Hres. cbn in Hres.
  assert (key ∈ items.*1) as Hkey.
  { apply list_elem_of_fmap. by exists (key, v). }
  apply (saved_items_keys d) in Hkey as [Hp _]; [|done].
  unfold reserved_names in Hres.
  repeat (apply elem_of_cons in Hres as [->|Hres]; [done|]).
  by apply elem_of_nil in Hres.
Qed.

(** Loading what [save_yaml] wrote restores every saved attribute and
    the count, whatever instance it is loaded into. *)
Lemma load_saved path suppress_warnings (d : gmap string value) target :
  consistent d ->
  d !! "update_num_iterations" = None ->
  yaml_round_trips (saved_dict d) ->
  files target !! path = Some (yaml_dump (saved_dict d)) ->
  self_dict target !! "update_num_iterations" = None ->
  ∃ w2 items,
    yaml_load (yaml_dump (saved_dict d)) = ok items
    ∧ NoDup items.*1 ∧ list_to_map items = saved_dict d
    ∧ load_yaml path suppress_warnings target = (ok tt, w2)
    ∧ consistent (self_dict w2)
    ∧ extends (self_dict target) (self_dict w2)
    ∧ files w2 = files target
    ∧ stdout w2
      = stdout target ++ (if suppress_warnings then []
                          else warning <$> new_keys (self_dict target) items)
    ∧ (∀ name v, saved_key name = true -> d !! name = Some v ->
                 self_dict w2 !! name = Some v)
    ∧ ∀ name, name ≠ "num_iterations" ->
        self_dict w2 !! name
        = match saved_dict d !! name with
          | Some v => Some v
          | None => self_dict target !! name
          end.
Proof.
  intros (cvs & Hcvs & Hnum) Hupd (items & Hitems & Hnd & Hmap) Hfile Htarget.
  pose proof (saved_items_loadable d items Hmap) as Hres.
  assert ("update_num_iterations" ∉ items.*1) as Hkeys.
  { intros [_ [v Hv]]%(saved_items_keys d); [congruence|done]. }
  rewrite (load_yaml_eq path suppress_warnings target _ _ Hfile Hitems Hres).
  rewrite invoke_None
    by (cbn [self_dict]; by rewrite lookup_foldl_insert_ne).
  set (loaded := foldl _ (self_dict target) items).
  assert (∀ name v, saved_key name = true -> d !! name = Some v ->
                    loaded !! name = Some v) as Hloaded.
  { intros name v Hsaved Hv. unfold loaded.
    rewrite lookup_foldl_insert, Hmap by done.
    unfold saved_dict.
    by rewrite (proj2 (map_lookup_filter_Some _ d name v) (conj Hv Hsaved)). }
  assert (values_of loaded counted_fields = Some cvs) as Hvals.
  { pose proof recognized_saved as Hs.
    apply Forall_cons in Hs as [_ Hs]. apply Forall_app in Hs as [_ Hs].
    unfold values_of in *. apply mapM_Some. apply mapM_Some in Hcvs.
    clear Hnum. revert Hs.
    induction Hcvs as [|name v names vs Hv _ IH]; [constructor|].
    intros [Hname Hnames]%Forall_cons. constructor; auto. }
  rewrite update_num_iterations_eq. cbn [self_dict]. rewrite Hvals.
  eexists _, items. split; [done|]. split; [done|]. split; [done|].
  split; [reflexivity|]. cbn [self_dict set_self files stdout].
  split; [|split; [|split; [done|split; [done|split]]]].
  - exists cvs. rewrite lookup_insert_eq.
    by rewrite values_of_insert_ne by apply counted_fields_not_num.
  - eapply extends_trans; [apply foldl_insert_extends|apply extends_insert].
  - intros name v Hsaved Hv.
    destruct (decide ("num_iterations" = name)) as [<-|Hne].
    + rewrite lookup_insert_eq. congruence.
    + rewrite lookup_insert_ne by done. by apply Hloaded.
  - intros name Hname. rewrite lookup_insert_ne by done.
    unfold loaded. by rewrite lookup_foldl_insert, Hmap by done.
Qed.

(** Save, then load into any instance that sees the written file. *)
Lemma save_load_round_trip path suppress_warnings w :
  consistent (self_dict w) ->
  self_dict w !! "update_num_iterations" = None ->
  path ∉ unwritable w ->
  yaml_round_trips (saved_dict (self_dict w)) ->
  ∃ w1,
    save_yaml path w = (ok tt, w1)
    ∧ self_dict w1 = self_dict w
    ∧ ∀ target, files target !! path = files w1 !! path ->
        self_dict target !! "update_num_iterations" = None ->
        ∃ w2,
          load_yaml path suppress_warnings target = (ok tt, w2)
          ∧ consistent (self_dict w2)
          ∧ ∀ name v, saved_key name = true ->
                      self_dict w !! name = Some v ->
                      self_dict w2 !! name = Some v.
Proof.
  intros Hc Hu Hw Hrt. rewrite save_yaml_eq.
  destruct (decide (path ∈ unwritable w)); [done|].
  eexists. split; [reflexivity|]. split; [done|].
  intros target Hfile Htarget.
  cbn [files] in Hfile. rewrite lookup_insert_eq in Hfile.
  destruct (load_saved path suppress_warnings _ target Hc Hu Hrt Hfile Htarget)
    as (w2 & items & _ & _ & _ & Hload & Hc2 & _ & _ & _ & Hsame & _).
  by exists w2.
Qed.

(** Counting again changes nothing on a consistent instance. *)
Lemma update_num_iterations_id w :
  consistent (self_dict w) -> update_num_iterations w = (ok tt, w).
Proof.
  intros (cvs & Hcvs & Hnum). rewrite update_num_iterations_eq, Hcvs.
  rewrite insert_id by done. by rewrite set_self_self.
Qed.

(** Save, then construct a new instance from the written file: the
    attributes of the new instance are the saved ones over the defaults,
    and the constructor warns for the saved keys that are no defaults. *)
Lemma save_new_round_trip path w :
  consistent (self_dict w) ->
  self_dict w !! "update_num_iterations" = None ->
  path ∉ unwritable w ->
  path ≠ "" ->
  yaml_round_trips (saved_dict (self_dict w)) ->
  ∃ w1 w2 items,
    save_yaml path w = (ok tt, w1)
    ∧ NoDup items.*1 ∧ list_to_map items = saved_dict (self_dict w)
    ∧ new (Some path) w1 = (ok tt, w2)
    ∧ consistent (self_dict w2)
    ∧ stdout w2 = stdout w ++ (warning <$> new_keys (with_defaults ∅) items)
    ∧ (∀ name v, saved_key name = true ->
                 self_dict w !! name = Some v ->
                 self_dict w2 !! name = Some v)
    ∧ ∀ name, name ≠ "num_iterations" ->
        self_dict w2 !! name
        = match saved_dict (self_dict w) !! name with
          | Some v => Some v
          | None => with_defaults ∅ !! name
          end.
Proof.
  intros Hc Hu Hw Hpath Hrt. rewrite save_yaml_eq.
  destruct (decide (path ∈ unwritable w)); [done|].
  set (w1 := World (self_dict w)
                   (<[path := yaml_dump (saved_dict (self_dict w))]> (files w))
                   (unwritable w) (stdout w)).
  exists w1. unfold new. rewrite init_eq.
  rewrite bool_decide_eq_false_2 by done.
  set (target := set_self (with_defaults (self_dict (set_self ∅ w1)))
                          (set_self ∅ w1)).
  assert (∀ name, name ∉ recognized_fields ->
                  self_dict target !! name = None) as Hdef.
  { intros name Hname. by apply defaults_unshadowed. }
  destruct (load_saved path false _ target Hc Hu Hrt)
    as (w2 & items & _ & Hnd & Hmap & Hload & Hc2 & _ & _ & Hout & Hsame & Hall).
  { cbn [target w1 files set_self]. by rewrite lookup_insert_eq. }
  { apply Hdef. apply (bool_decide_unpack _). vm_compute. exact I. }
  exists w2, items. split; [reflexivity|]. split; [done|]. split; [done|].
  erewrite bind_ok.
  2:{ rewrite invoke_None; [exact Hload|].
      apply Hdef. apply (bool_decide_unpack _). vm_compute. exact I. }
  rewrite invoke_None.
  2:{ rewrite Hall by done.
      destruct (saved_dict (self_dict w) !! "update_num_iterations") as [v|]
        eqn:Hv.
      - rewrite saved_dict_lookup in Hv. cbn in Hv. congruence.
      - apply Hdef. apply (bool_decide_unpack _). vm_compute. exact I. }
  rewrite update_num_iterations_id by done.
  split; [reflexivity|]. split; [done|]. split; [exact Hout|].
  split; [done|]. exact Hall.
Qed.

(** The instance that [PipelinesConfig()] constructs. *)
Lemma values_of_defaults d :
  values_of (with_defaults d) counted_fields
  = Some [VList [VTuple [VInt 40; VInt 50]]; VList [VTuple [VInt 50; VInt 60]];
          VList [VTuple [VFloat 0.65; VFloat 0.1]];
          VList [VTuple [VInt 2; VInt 2]]; VList [VInt 0];
          VList [VStr "lines"]; VList [VInt 80]; VList [VInt 1];
          VList [VInt 10]].
Proof.
  unfold values_of, counted_fields, with_defaults. apply mapM_Some.
  repeat (apply Forall2_cons; split;
          [repeat (rewrite lookup_insert_ne by done); apply lookup_insert_eq|]).
  apply Forall2_nil_2.
Qed.

Lemma new_None_eq w0 :
  new None w0
  = (ok tt, set_self (<["num_iterations" := VInt 1]> (with_defaults ∅)) w0).
Proof.
  unfold new. rewrite init_eq. unfold bind at 1, ret at 1.
  rewrite invoke_None.
  2:{ cbn [self_dict set_self]. apply defaults_unshadowed.
      apply (bool_decide_unpack _). vm_compute. exact I. }
  rewrite update_num_iterations_eq. cbn [self_dict set_self].
  by rewrite values_of_defaults.
Qed.

(** ** Further properties of the methods *)

(** With distinct keys, a key is new exactly when it is loaded and was no
    attribute before the load. *)
Lemma elem_of_new_keys (items : list (string * value)) key :
  ∀ d : gmap string value,
    NoDup items.*1 ->
    key ∈ new_keys d items ↔ key ∈ items.*1 ∧ key ∉ dom d.
Proof.
  clear yaml_dump yaml_load fit_predict File.
  induction items as [|[k0 v0] items IH]; intros d Hnd.
  - cbn. rewrite !elem_of_nil. tauto.
  - rewrite fmap_cons in Hnd. apply NoDup_cons in Hnd as [Hk0 Hnd].
    cbn [new_keys]. rewrite elem_of_app, IH by done.
    rewrite fmap_cons, elem_of_cons, dom_insert, elem_of_union,
      elem_of_singleton. cbn [fst].
    destruct (bool_decide_reflect (k0 ∈ dom d)) as [Hin|Hout].
    + rewrite elem_of_nil. split.
      * intros [[]|(Hk & Hd)]. split; [by right|]. tauto.
      * intros ([->|Hk] & Hd); [done|]. right. split; [done|].
        intros [->|?]; done.
    + rewrite list_elem_of_singleton. split.
      * intros [->|(Hk & Hd)]; [by split; [left|]|].
        split; [by right|]. tauto.
      * intros ([->|Hk] & Hd); [by left|]. right. split; [done|].
        intros [->|?]; done.
Qed.

(** With distinct keys, no key is reported twice. *)
Lemma NoDup_new_keys (items : list (string * value)) :
  ∀ d : gmap string value, NoDup items.*1 -> NoDup (new_keys d items).
Proof.
  induction items as [|[k0 v0] items IH]; intros d Hnd; [constructor|].
  rewrite fmap_cons in Hnd. apply NoDup_cons in Hnd as [Hk0 Hnd].
  cbn [new_keys]. destruct (bool_decide (k0 ∈ dom d)); cbn [app].
  - by apply IH.
  - apply NoDup_cons. split; [|by apply IH].
    intros [Hin _]%elem_of_new_keys; done.
Qed.

(** The largest length is attained, unless no field is longer than 1. *)
Lemma max_len_attained xs :
  max_len xs = 1%Z ∨ ∃ x, x ∈ xs ∧ field_len x = max_len xs.
Proof.
  induction xs as [|x xs IH]; [by left|].
  rewrite max_len_cons.
  destruct (Z.max_spec (field_len x) (max_len xs)) as [[_ ->]|[_ ->]].
  - destruct IH as [?|(y & Hy & Hlen)]; [by left|].
    right. exists y. split; [by right|done].
  - right. exists x. split; [by left|done].
Qed.

(** Each column of [hw_grouped] is there when the rows come from the
    loop body and there is at least one. *)
Lemma np_column_hw_group box_sizes clusters margin_percent margin_px_limit
    use_rect_kernel_for_small rect_kernel_threshold labels rows w j :
  Forall2 (fun i row =>
             hw_group box_sizes clusters margin_percent margin_px_limit
               use_rect_kernel_for_small rect_kernel_threshold i w
             = (ok row, w)) labels rows ->
  rows ≠ [] -> j ∈ [0; 1; 2; 3]%Z ->
  ∃ col, np_column rows j = ok col.
Proof.
  intros Hrows Hne Hj.
  destruct (res_map_ok (fun row => seq_getitem row j) (fun _ _ => True) rows)
    as (col & Hcol & _).
  - apply Forall_forall. intros row Hrow.
    apply list_elem_of_lookup in Hrow as [k Hk].
    destruct (Forall2_lookup_r _ _ _ _ _ Hrows Hk) as (i & _ & Hi).
    apply hw_group_length in Hi.
    destruct row as [|a [|b [|c [|d [|? ?]]]]]; try done.
    repeat (apply elem_of_cons in Hj as [->|Hj]; [by eexists|]).
    by apply elem_of_nil in Hj.
  - exists col. by destruct rows.
Qed.

(** Calibration is all or nothing: on an instance that has the counted
    fields and a callable [update_num_iterations], a calibration that
    raises has stored nothing. *)
Lemma autoconfigure_throw_inv box_sizes epsilon margin_percent margin_px_limit
    use_rect_kernel_for_small rect_kernel_threshold w cvs e w' :
  values_of (self_dict w) counted_fields = Some cvs ->
  self_dict w !! "update_num_iterations" = None ->
  autoconfigure box_sizes epsilon margin_percent margin_px_limit
    use_rect_kernel_for_small rect_kernel_threshold w = (throw e, w') ->
  w' = w.
Proof.
  intros Hcvs Hupd. unfold autoconfigure, bind at 1, lift at 1.
  destruct (res_bind (fit_predict epsilon box_sizes) _) as [?|clusters];
    [by intros [= _ <-]|].
  unfold bind at 1, lift at 1.
  destruct (np_asarray box_sizes) as [?|arr]; [by intros [= _ <-]|].
  unfold bind at 1, lift at 1.
  destruct (py_max clusters) as [?|top]; [by intros [= _ <-]|].
  unfold bind at 1, lift at 1.
  destruct (np_add top 1) as [?|stop]; [by intros [= _ <-]|].
  unfold bind at 1. rewrite map_m_pure by (intros; apply hw_group_world).
  destruct (res_map _ (py_range 0 stop)) as [?|rows] eqn:Hrows;
    [by intros [= _ <-]|].
  unfold bind at 1, lift at 1.
  destruct (np_column rows 1) as [?|widths] eqn:Hw; [by intros [= _ <-]|].
  assert (rows ≠ []) as Hne by (by destruct rows).
  apply hw_rows in Hrows.
  destruct (np_column_hw_group _ _ _ _ _ _ _ rows w 0 Hrows Hne)
    as [heights Hh]; [set_solver|].
  destruct (np_column_hw_group _ _ _ _ _ _ _ rows w 2 Hrows Hne)
    as [ratios Hr]; [set_solver|].
  destruct (np_column_hw_group _ _ _ _ _ _ _ rows w 3 Hrows Hne)
    as [kernels Hk]; [set_solver|].
  erewrite bind_ok by apply setattr_eq.
  unfold bind at 1, lift at 1. rewrite Hh.
  erewrite bind_ok by apply setattr_eq.
  unfold bind at 1, lift at 1. rewrite Hr.
  erewrite bind_ok by apply setattr_eq.
  unfold bind at 1, lift at 1. rewrite Hk.
  erewrite bind_ok by apply setattr_eq.
  rewrite invoke_None
    by (cbn [self_dict set_self]; by rewrite !lookup_insert_ne).
  rewrite update_num_iterations_eq. cbn [self_dict set_self].
  destruct (values_of_extends _
              (<["morph_kernels_type" := VList kernels]>
                 (<["wh_ratio_range" := VList ratios]>
                    (<["height_range" := VList heights]>
                       (<["width_range" := VList widths]> (self_dict w)))))
              _ _ Hcvs) as [cvs' ->]; [|done].
  repeat (eapply extends_trans; [|apply extends_insert]).
  by intros name.
Qed.

(** A successful calibration changes the four calibrated fields and the
    count, and nothing else. *)
Lemma autoconfigure_frame box_sizes epsilon margin_percent margin_px_limit
    use_rect_kernel_for_small rect_kernel_threshold w w' :
  autoconfigure box_sizes epsilon margin_percent margin_px_limit
    use_rect_kernel_for_small rect_kernel_threshold w = (ok tt, w') ->
  files w' = files w ∧ unwritable w' = unwritable w ∧ stdout w' = stdout w
  ∧ ∀ name,
      name ∉ ["width_range"; "height_range"; "wh_ratio_range";
              "morph_kernels_type"; "num_iterations"] ->
      self_dict w' !! name = self_dict w !! name.
Proof.
  intros H. apply autoconfigure_inv in H
    as (clusters & top & rows & heights & widths & ratios & kernels
        & _ & _ & _ & _ & _ & _ & _ & _ & _ & Hupd).
  apply update_num_iterations_ok_inv in Hupd as (cvs & _ & ->).
  repeat (split; [done|]).
  intros name Hname. cbn [self_dict set_self].
  repeat (apply not_elem_of_cons in Hname as [? Hname]).
  by rewrite !lookup_insert_ne by done.
Qed.

(** The tuples of the expansion, component by component. *)
Lemma variables_as_iterators_exact w vs :
  self_dict w !! "update_num_iterations" = None ->
  self_dict w !! "_PipelinesConfig__conv_to_list" = None ->
  values_of (self_dict w) variables_list_fields = Some vs ->
  Forall (fun v => v ≠ VList []) vs ->
  ∃ z tuples z',
    variables_as_iterators w
    = (ok z,
       set_self (<["num_iterations" := VInt (max_len vs)]> (self_dict w)) w)
    ∧ py_list z = (tuples, z')
    ∧ Z.of_nat (length tuples) = max_len vs
    ∧ ∀ j t, tuples !! j = Some t ->
             Forall2 (fun v x => broadcast_at (max_len vs) j v = Some x) vs t.
Proof.
  intros Hu Hc Hvs Hne.
  destruct (variables_as_iterators_ok w vs Hu Hc Hvs Hne)
    as (lists & Hrun & Hlists).
  destruct (values_of_counted _ _ Hvs) as (_ & _ & _ & Hnine).
  pose proof (max_len_ge_1 vs) as Hn.
  destruct (py_list_tuples (Z.to_nat (max_len vs)) lists)
    as (tuples & z' & Hlist & Hlen & Htuples).
  - apply Forall_forall. intros l Hl.
    apply list_elem_of_lookup in Hl as [k Hk].
    destruct (Forall2_lookup_r _ _ _ _ _ Hlists Hk) as (v & _ & _ & Hll & _).
    lia.
  - apply Forall2_length in Hlists as Hsame.
    destruct lists as [|l lists]; [cbn in Hsame; lia|].
    apply Exists_cons_hd.
    apply Forall2_cons_inv_r in Hlists as (v & vs' & (_ & Hll & _) & _ & _).
    done.
  - exists (py_zip lists), tuples, z'.
    split; [done|]. split; [done|]. split; [lia|].
    intros j t Ht. apply Htuples in Ht.
    apply Forall2_same_length_lookup_2.
    { apply Forall2_length in Hlists. apply Forall2_length in Ht. congruence. }
    intros i v x Hv Hx.
    destruct (Forall2_lookup_l _ _ _ _ _ Hlists Hv) as (l & Hl & Hconv & _ & _).
    pose proof (Forall2_lookup_lr _ _ _ _ _ _ Ht Hl Hx) as Hlj.
    rewrite Forall_forall in Hne.
    assert (v ≠ VList []) as Hv0.
    { apply Hne. apply list_elem_of_lookup. by exists i. }
    unfold conv_to_list in Hconv. unfold broadcast_at.
    destruct v as [| | | | | |l0| |];
      try (injection Hconv as <-; by apply lookup_replicate_1 in Hlj as [-> _]).
    destruct (max_len vs <=? Z.of_nat (length l0))%Z.
    + by injection Hconv as <-.
    + destruct l0 as [|x0 l0]; [done|]. cbn in Hconv. injection Hconv as <-.
      by apply lookup_replicate_1 in Hlj as [-> _].
Qed.

(** When no padding is negative and no padded bound leaves the 64-bit
    range, the stored ranges of a label contain every point with that
    label. *)
Lemma autoconfigure_contains box_sizes epsilon margin_percent margin_px_limit
    use_rect_kernel_for_small rect_kernel_threshold w w' :
  autoconfigure box_sizes epsilon margin_percent margin_px_limit
    use_rect_kernel_for_small rect_kernel_threshold w = (ok tt, w') ->
  (0 <= margin_px_limit)%Z ->
  (∀ p, p ∈ box_sizes ->
        (float_of_Z p.1 * margin_percent <? 0)%float = false
        ∧ (float_of_Z p.2 * margin_percent <? 0)%float = false) ->
  (∀ p, p ∈ box_sizes ->
        (- 2 ^ 63 + margin_px_limit <= p.1 < 2 ^ 63 - margin_px_limit)%Z
        ∧ (- 2 ^ 63 + margin_px_limit <= p.2 < 2 ^ 63 - margin_px_limit)%Z) ->
  ∃ clusters heights widths,
    fit_predict epsilon box_sizes = ok clusters
    ∧ self_dict w' !! "height_range" = Some (VList heights)
    ∧ self_dict w' !! "width_range" = Some (VList widths)
    ∧ ∀ k p i,
        box_sizes !! k = Some p -> clusters !! k = Some i -> (0 <= i)%Z ->
        ∃ lo_h hi_h lo_w hi_w,
          heights !! Z.to_nat i = Some (VTuple [VInt64 lo_h; VInt64 hi_h])
          ∧ widths !! Z.to_nat i = Some (VTuple [VInt64 lo_w; VInt64 hi_w])
          ∧ (lo_h <= p.1 <= hi_h)%Z ∧ (lo_w <= p.2 <= hi_w)%Z.
Proof.
  intros H Hlim Hpos Hfit64. apply autoconfigure_entries in H
    as (clusters & top & heights & widths & ratios & kernels
        & Hfit & Htop & Hh & Hw & _ & _ & Hgroups).
  exists clusters, heights, widths. repeat (split; [assumption|]).
  intros k p i Hp Hi Hi0.
  apply py_max_spec in Htop as [_ Htop].
  assert (i <= top)%Z as Hit.
  { apply Htop. apply list_elem_of_lookup. by exists k. }
  destruct (Hgroups i (conj Hi0 Hit))
    as (group & minh & maxh & minw & maxw & tminh & tmaxh & tminw & tmaxw
        & Hsel & Hminh & Hmaxh & Hminw & Hmaxw & Htminh & Htmaxh & Htminw
        & Htmaxw & _ & _ & _ & _ & Hhi & Hwi & _ & _).
  assert (∀ q, q ∈ group -> q ∈ box_sizes) as Hsub.
  { intros q Hq. apply (np_select_spec _ _ _ _ q Hsel) in Hq as (j & Hq & _).
    apply list_elem_of_lookup. by exists j. }
  assert (p ∈ group) as Hpg.
  { apply (np_select_spec _ _ _ _ p Hsel). by exists k. }
  apply py_min_spec in Hminh as [Hminh_in Hminh].
  apply py_max_spec in Hmaxh as [Hmaxh_in Hmaxh].
  apply py_min_spec in Hminw as [Hminw_in Hminw].
  apply py_max_spec in Hmaxw as [Hmaxw_in Hmaxw].
  apply list_elem_of_fmap in Hminh_in as (q1 & -> & Hq1).
  apply list_elem_of_fmap in Hmaxh_in as (q2 & -> & Hq2).
  apply list_elem_of_fmap in Hminw_in as (q3 & -> & Hq3).
  apply list_elem_of_fmap in Hmaxw_in as (q4 & -> & Hq4).
  assert (0 <= tminh ∧ 0 <= tmaxh ∧ 0 <= tminw ∧ 0 <= tmaxw)%Z
    as (? & ? & ? & ?).
  { repeat split; eapply py_int_nonneg; try eassumption;
      by (apply Hpos; apply Hsub). }
  pose proof (Hfit64 q1 (Hsub q1 Hq1)) as [? _].
  pose proof (Hfit64 q2 (Hsub q2 Hq2)) as [? _].
  pose proof (Hfit64 q3 (Hsub q3 Hq3)) as [_ ?].
  pose proof (Hfit64 q4 (Hsub q4 Hq4)) as [_ ?].
  eexists _, _, _, _. split; [exact Hhi|]. split; [exact Hwi|].
  assert (p.1 ∈ group.*1) as Hp1 by (apply list_elem_of_fmap; by exists p).
  assert (p.2 ∈ group.*2) as Hp2 by (apply list_elem_of_fmap; by exists p).
  specialize (Hminh _ Hp1). specialize (Hmaxh _ Hp1).
  specialize (Hminw _ Hp2). specialize (Hmaxw _ Hp2).
  rewrite !wrap64_id by lia. lia.
Qed.

(** Calibrating a new instance and expanding it: one tuple per label,
    carrying the calibrated entries of the label and the defaults of the
    other fields. *)
Lemma calibrate_then_expand w0 box_sizes epsilon margin_percent
    margin_px_limit use_rect_kernel_for_small rect_kernel_threshold w' :
  autoconfigure box_sizes epsilon margin_percent margin_px_limit
    use_rect_kernel_for_small rect_kernel_threshold (new None w0).2
  = (ok tt, w') ->
  ∃ clusters top heights widths ratios kernels z w'' tuples z',
    fit_predict epsilon box_sizes = ok clusters
    ∧ py_max clusters = ok top
    ∧ self_dict w' !! "height_range" = Some (VList heights)
    ∧ self_dict w' !! "width_range" = Some (VList widths)
    ∧ self_dict w' !! "wh_ratio_range" = Some (VList ratios)
    ∧ self_dict w' !! "morph_kernels_type" = Some (VList kernels)
    ∧ self_dict w' !! "num_iterations" = Some (VInt (top + 1))
    ∧ variables_as_iterators w' = (ok z, w'')
    ∧ py_list z = (tuples, z')
    ∧ Z.of_nat (length tuples) = (top + 1)%Z
    ∧ ∀ j t, tuples !! j = Some t ->
        ∃ wd h r k,
          widths !! j = Some wd ∧ heights !! j = Some h
          ∧ ratios !! j = Some r ∧ kernels !! j = Some k
          ∧ t = [wd; h; r; VInt 0; VTuple [VInt 2; VInt 2]; VInt 10;
                 VInt 80; k; VInt 1].
Proof.
  rewrite new_None_eq. cbn [snd]. intros H.
  pose proof (autoconfigure_frame _ _ _ _ _ _ _ _ H) as (_ & _ & _ & Hframe).
  pose proof (autoconfigure_consistent _ _ _ _ _ _ _ _ H) as (Hcons & _ & _).
  apply autoconfigure_groups in H
    as (clusters & top & heights & widths & ratios & kernels
        & Hfit & Htop & Hpos & Hh & Hw & Hr & Hk & Hlh & Hlw & Hlr & Hlk & _).
  cbn [self_dict set_self] in Hframe.
  set (vs := [VList widths; VList heights; VList ratios; VList [VInt 0];
              VList [VTuple [VInt 2; VInt 2]]; VList [VInt 10];
              VList [VInt 80]; VList kernels; VList [VInt 1]]).
  assert (values_of (self_dict w') variables_list_fields = Some vs) as Hvs.
  { apply mapM_Some. unfold variables_list_fields, vs.
    repeat (apply Forall2_cons; split;
            [first [assumption
                   |rewrite Hframe
                      by (apply (bool_decide_unpack _); vm_compute; exact I);
                    vm_compute; reflexivity]|]).
    apply Forall2_nil_2. }
  assert (max_len vs = top + 1)%Z as Hmax.
  { apply Z.le_antisymm.
    - apply max_len_le; [lia|]. unfold vs.
      repeat (apply Forall_cons_2; [cbn [field_len length]; lia|]).
      apply Forall_nil_2.
    - transitivity (field_len (VList widths)); [cbn [field_len]; lia|].
      apply max_len_ge. unfold vs. by left. }
  assert (Forall (fun v => v ≠ VList []) vs) as Hne.
  { unfold vs.
    repeat (apply Forall_cons_2;
            [intros [= Hnil]; try rewrite Hnil in *; cbn in *; lia|]).
    apply Forall_nil_2. }
  assert (∀ name, name ∉ "num_iterations" :: recognized_fields ->
                  self_dict w' !! name = None) as Hnone.
  { intros name [Hnum Hname]%not_elem_of_cons. rewrite Hframe.
    - rewrite lookup_insert_ne by done. by apply defaults_unshadowed.
    - unfold recognized_fields in Hname. rewrite !not_elem_of_cons in Hname.
      rewrite !not_elem_of_cons. tauto. }
  destruct (variables_as_iterators_exact w' vs) as
    (z & tuples & z' & Hrun & Hlist & Hlen & Htuples); [| |done|done|].
  { apply Hnone. apply (bool_decide_unpack _). vm_compute. exact I. }
  { apply Hnone. apply (bool_decide_unpack _). vm_compute. exact I. }
  exists clusters, top, heights, widths, ratios, kernels, z.
  eexists _, tuples, z'.
  repeat (split; [eassumption|]).
  split.
  { destruct Hcons as (cvs & Hcvs & ->). do 2 f_equal.
    destruct (values_of_counted _ _ Hvs) as (cvs' & Hcvs' & Hsame & _).
    rewrite <- Hmax, <- Hsame. congruence. }
  split; [exact Hrun|]. split; [done|]. split; [by rewrite Hlen|].
  intros j t Ht.
  assert (j < length tuples) as Hj by (by eapply lookup_lt_Some).
  apply Htuples in Ht. rewrite Hmax in Ht. unfold vs in Ht.
  repeat match type of Ht with
         | Forall2 _ (_ :: _) _ =>
             let x := fresh "x" in
             let E := fresh "E" in
             apply Forall2_cons_inv_l in Ht as (x & ? & E & Ht & ->)
         | Forall2 _ [] _ => apply Forall2_nil_inv_l in Ht as ->
         end.
  unfold broadcast_at in *.
  repeat match goal with
         | E : (if (?n <=? ?m)%Z then _ else _) = Some _ |- _ =>
             destruct (Z.leb_spec n m); cbn [length] in *
         end; try lia.
  all: try (assert (j = 0) as -> by lia).
  all: simplify_eq/=.
  all: by eexists _, _, _, _.
Qed.

Lemma recognized_not_dunder key :
  String.prefix "__" key = true ->
  (key ∉ recognized_fields) ∧ key ≠ "num_iterations".
Proof.
  clear yaml_dump yaml_load fit_predict File.
  intros Hp. split.
  - unfold recognized_fields. rewrite !not_elem_of_cons.
    repeat (split; [by intros ->|]). apply not_elem_of_nil.
  - by intros ->.
Qed.

End PipelinesConfig.

(** * The properties of the specification *)

(** The instance that [PipelinesConfig()] constructs, with no file. *)
Abbreviation fresh_instance :=
  ((new mapping_load None (World ∅ ∅ ∅ [])).2).

(** C9. A parameter set constructed with no source has an iteration count
    of 1: [PipelinesConfig()] returns, and the instance it leaves has
    [num_iterations == 1]. *)
Theorem default_iteration_count :
  ∀ (File : Type) (yaml_load : File -> res (list (string * value)))
    (w0 : @world File),
  ∃ w, new yaml_load None w0 = (ok tt, w)
       ∧ self_dict w !! "num_iterations" = Some (VInt 1).
Proof.
  intros File yaml_load w0. eexists. rewrite new_None_eq.
  split; [reflexivity|]. cbn. apply lookup_insert_eq.
Qed.

(** C5. Calibration on an empty measurement sample raises an exception,
    whatever the clustering collaborator does with the empty sample, and
    the world after the call is the world before it: no field of the
    parameter set has changed. *)
Theorem calibration_failure_atomic :
  ∀ (File : Type) (fit_predict : value -> list (Z * Z) -> res (list Z))
    (w : @world File) (epsilon : value) (margin_percent : float)
    (margin_px_limit : Z) (use_rect_kernel_for_small : bool)
    (rect_kernel_threshold : Z),
  ∃ e, autoconfigure fit_predict [] epsilon margin_percent margin_px_limit
         use_rect_kernel_for_small rect_kernel_threshold w
       = (throw e, w).
Proof. intros. apply autoconfigure_empty. Qed.

(** C2. Broadcast completeness.  For a parameter set that has the nine
    expanded fields [vs], none of them an empty list, and whose methods are
    those of the class, [variables_as_iterators] returns an iterator and
    stores the count of [update_num_iterations], the largest length among
    the fields, which is at least 1; consuming the iterator yields exactly
    that many tuples; every tuple has one component per field, and each
    component is resolved from its field: one element of the field's list,
    or the field itself when it is a scalar.  When the fields are typed as
    in the data model, every component is a scalar or a pair. *)
Theorem broadcast_completeness :
  ∀ (File : Type) (w : @world File) (vs : list value),
    self_dict w !! "update_num_iterations" = None ->
    self_dict w !! "_PipelinesConfig__conv_to_list" = None ->
    values_of (self_dict w) variables_list_fields = Some vs ->
    Forall (fun v => v ≠ VList []) vs ->
    ∃ z w' tuples z',
      variables_as_iterators w = (ok z, w')
      ∧ self_dict w' !! "num_iterations" = Some (VInt (max_len vs))
      ∧ (1 <= max_len vs)%Z
      ∧ py_list z = (tuples, z')
      ∧ Z.of_nat (length tuples) = max_len vs
      ∧ Forall (fun t => Forall2 resolved_from vs t) tuples
      ∧ (Forall well_typed vs -> Forall (Forall is_entry) tuples).
Proof.
  intros File w vs Hu Hc Hvs Hne.
  destruct (variables_as_iterators_tuples w vs Hu Hc Hvs Hne)
    as (z & tuples & z' & Hrun & Hlist & Hlen & Hres).
  exists z, (set_self (<["num_iterations" := VInt (max_len vs)]> (self_dict w)) w),
    tuples, z'.
  split; [done|]. split; [cbn; apply lookup_insert_eq|].
  split; [apply max_len_ge_1|].
  split; [done|]. split; [done|]. split; [done|].
  intros Htyped. eapply Forall_impl; [exact Hres|].
  intros t Ht. eapply Forall2_Forall_r; [exact Ht|].
  eapply Forall_impl; [exact Htyped|].
  intros v Hv x Hx. by eapply resolved_entry.
Qed.

Lemma broadcast_completeness_witness :
  let w :=
    (setattr "dilation_iterations" (VInt 3)
       (setattr "height_range"
          (VList [VTuple [VInt 50; VInt 60]; VTuple [VInt 60; VInt 70]])
          fresh_instance).2).2 in
  let vs :=
    [VList [VTuple [VInt 40; VInt 50]];
     VList [VTuple [VInt 50; VInt 60]; VTuple [VInt 60; VInt 70]];
     VList [VTuple [VFloat 0.65; VFloat 0.1]]; VInt 3;
     VList [VTuple [VInt 2; VInt 2]]; VList [VInt 10]; VList [VInt 80];
     VList [VStr "lines"]; VList [VInt 1]] in
  ∃ z w' tuples z',
    variables_as_iterators w = (ok z, w')
    ∧ self_dict w' !! "num_iterations" = Some (VInt (max_len vs))
    ∧ (1 <= max_len vs)%Z
    ∧ py_list z = (tuples, z')
    ∧ Z.of_nat (length tuples) = max_len vs
    ∧ Forall (fun t => Forall2 resolved_from vs t) tuples
    ∧ (Forall well_typed vs -> Forall (Forall is_entry) tuples).
Proof.
  intros w vs.
  apply (broadcast_completeness (gmap string value) w vs).
  - vm_compute. reflexivity.
  - vm_compute. reflexivity.
  - vm_compute. reflexivity.
  - unfold vs. repeat (apply Forall_cons_2; [discriminate|]).
    apply Forall_nil_2.
Defined.

(** C10. With the nine expanded fields [vs] present and the methods of
    the class not hidden by attributes of the instance, an empty list among
    the fields makes [variables_as_iterators] raise [IndexError] (the
    count, already recomputed, is at least 1); the expansion returns
    exactly when no field is an empty list. *)
Theorem empty_field_expansion_fails :
  ∀ (File : Type) (w : @world File) (vs : list value),
    self_dict w !! "update_num_iterations" = None ->
    self_dict w !! "_PipelinesConfig__conv_to_list" = None ->
    values_of (self_dict w) variables_list_fields = Some vs ->
    (VList [] ∈ vs ->
     ∃ w' n, variables_as_iterators w = (throw IndexError, w')
             ∧ self_dict w' !! "num_iterations" = Some (VInt n)
             ∧ (1 <= n)%Z)
    ∧ ((∃ z w', variables_as_iterators w = (ok z, w'))
       ↔ Forall (fun v => v ≠ VList []) vs).
Proof.
  intros File w vs Hu Hc Hvs. split; [|split].
  - intros Hin. eexists _, (max_len vs).
    rewrite (variables_as_iterators_empty w vs Hu Hc Hvs Hin).
    split; [reflexivity|]. split; [cbn; apply lookup_insert_eq|].
    apply max_len_ge_1.
  - intros (z & w' & Hrun). apply Forall_forall. intros v Hv ->.
    rewrite (variables_as_iterators_empty w vs Hu Hc Hvs Hv) in Hrun.
    discriminate.
  - intros Hne.
    destruct (variables_as_iterators_ok w vs Hu Hc Hvs Hne)
      as (lists & Hrun & _).
    eauto.
Qed.

Lemma empty_field_expansion_fails_witness :
  (VList [] ∈ [VList []; VList [VTuple [VInt 50; VInt 60]]; VInt 1; VInt 0;
               VInt 2; VInt 10; VInt 80; VStr "lines"; VInt 1] ->
   ∃ w' n,
     variables_as_iterators
       (World (list_to_map
                 [("width_range", VList []);
                  ("height_range", VList [VTuple [VInt 50; VInt 60]]);
                  ("wh_ratio_range", VInt 1); ("dilation_iterations", VInt 0);
                  ("dilation_kernel", VInt 2); ("vertical_max_distance", VInt 10);
                  ("horizontal_max_distance", VInt 80);
                  ("morph_kernels_type", VStr "lines");
                  ("morph_kernels_thickness", VInt 1)])
              (∅ : gmap string unit) ∅ [])
     = (throw IndexError, w')
     ∧ self_dict w' !! "num_iterations" = Some (VInt n) ∧ (1 <= n)%Z)
  ∧ ((∃ z w',
        variables_as_iterators
          (World (list_to_map
                    [("width_range", VList []);
                     ("height_range", VList [VTuple [VInt 50; VInt 60]]);
                     ("wh_ratio_range", VInt 1); ("dilation_iterations", VInt 0);
                     ("dilation_kernel", VInt 2); ("vertical_max_distance", VInt 10);
                     ("horizontal_max_distance", VInt 80);
                     ("morph_kernels_type", VStr "lines");
                     ("morph_kernels_thickness", VInt 1)])
                 (∅ : gmap string unit) ∅ [])
        = (ok z, w'))
     ↔ Forall (fun v => v ≠ VList [])
         [VList []; VList [VTuple [VInt 50; VInt 60]]; VInt 1; VInt 0; VInt 2;
          VInt 10; VInt 80; VStr "lines"; VInt 1]).
Proof.
  apply (empty_field_expansion_fails unit).
  - vm_compute. reflexivity.
  - vm_compute. reflexivity.
  - vm_compute. reflexivity.
Defined.



(** C4, as the code has it.  The value that [variables_as_iterators]
    returns is a one-shot iterator.  Consumed while the lists of the fields
    are as they were at the call, it yields the tuples of the broadcast of
    the nine fields [vs]: as many as the stored count, which is the largest
    length among the fields and at least 1, the component for a field in
    the tuple at [j] being the element at [j] of a list that has that many
    elements, the first element of a shorter list, and the field itself
    for a scalar.  Consuming the same object a second time yields no
    tuple.  Calling [variables_as_iterators] again on the instance returns
    a new iterator over the same tuples. *)
Theorem expansion_is_one_shot :
  ∀ (File : Type) (w w' : @world File) (z : zip_object),
    variables_as_iterators w = (ok z, w') ->
    ∃ vs tuples z1 z2,
      values_of (self_dict w) variables_list_fields = Some vs
      ∧ self_dict w' !! "num_iterations" = Some (VInt (max_len vs))
      ∧ (1 <= max_len vs)%Z
      ∧ py_list z = (tuples, z1)
      ∧ Z.of_nat (length tuples) = max_len vs
      ∧ (∀ j t, tuples !! j = Some t ->
                Forall2 (fun v x => broadcast_at (max_len vs) j v = Some x)
                        vs t)
      ∧ py_list z1 = ([], z2)
      ∧ variables_as_iterators w' = (ok z, w').
Proof.
  intros File w w' z Hrun.
  destruct (variables_as_iterators_callable w z w' Hrun) as [Hu Hc].
  destruct (variables_as_iterators_ok_inv w z w' Hrun) as (vs & Hvs & Hne).
  destruct (variables_as_iterators_exact w vs Hu Hc Hvs Hne)
    as (z0 & tuples & z1 & Hrun' & Hlist & Hlen & Htuples).
  rewrite Hrun in Hrun'. injection Hrun' as <- ->.
  destruct (py_list_exhausted z1) as (z2 & Hagain & _).
  { by eapply py_list_exhausts. }
  exists vs, tuples, z1, z2. split; [done|].
  split; [cbn; apply lookup_insert_eq|].
  split; [apply max_len_ge_1|].
  split; [done|]. split; [done|]. split; [done|]. split; [done|].
  by eapply variables_as_iterators_again.
Qed.

Lemma expansion_is_one_shot_witness :
  let w :=
    (setattr "dilation_iterations" (VInt 3)
       (setattr "height_range"
          (VList [VTuple [VInt 50; VInt 60]; VTuple [VInt 60; VInt 70]])
          fresh_instance).2).2 in
  let w' := (variables_as_iterators w).2 in
  let z :=
    [[VTuple [VInt 40; VInt 50]; VTuple [VInt 40; VInt 50]];
     [VTuple [VInt 50; VInt 60]; VTuple [VInt 60; VInt 70]];
     [VTuple [VFloat 0.65; VFloat 0.1]; VTuple [VFloat 0.65; VFloat 0.1]];
     [VInt 3; VInt 3];
     [VTuple [VInt 2; VInt 2]; VTuple [VInt 2; VInt 2]];
     [VInt 10; VInt 10]; [VInt 80; VInt 80];
     [VStr "lines"; VStr "lines"]; [VInt 1; VInt 1]] in
  ∃ vs tuples z1 z2,
    values_of (self_dict w) variables_list_fields = Some vs
    ∧ self_dict w' !! "num_iterations" = Some (VInt (max_len vs))
    ∧ (1 <= max_len vs)%Z
    ∧ py_list z = (tuples, z1)
    ∧ Z.of_nat (length tuples) = max_len vs
    ∧ (∀ j t, tuples !! j = Some t ->
              Forall2 (fun v x => broadcast_at (max_len vs) j v = Some x) vs t)
    ∧ py_list z1 = ([], z2)
    ∧ variables_as_iterators w' = (ok z, w').
Proof.
  intros w w' z.
  apply (expansion_is_one_shot (gmap string value) w w' z).
  vm_compute. reflexivity.
Defined.

(** C4, as the specification states it, fails on the defaults: the first
    iteration of the returned object yields one tuple, the second
    iteration of the same object yields none. *)
Lemma expansion_not_restartable :
  ∃ z w' t z1 z2,
    variables_as_iterators (new mapping_load None (World ∅ ∅ ∅ [])).2
    = (ok z, w')
    ∧ py_list z = ([t], z1)
    ∧ py_list z1 = ([], z2)
    ∧ [t] ≠ [].
Proof.
  do 5 eexists. split; [vm_compute; reflexivity|].
  split; [vm_compute; reflexivity|].
  split; [vm_compute; reflexivity|]. discriminate.
Qed.




(** C7. Kernel-variant policy.  For every label [i] of a successful
    calibration, the stored morphology-kernel entry is "rectangles" exactly
    when [use_rect_kernel_for_small] is on and both the unpadded maximal
    height and the unpadded maximal width of the group are at most
    [rect_kernel_threshold]; otherwise it is "lines".  A group with maximal
    height 25 and width 28, the flag on and threshold 30, gets
    "rectangles"; a group with maximal height 35 gets "lines" whatever the
    flag. *)
Theorem kernel_policy :
  (∀ (File : Type) (fit_predict : value -> list (Z * Z) -> res (list Z))
     (w w' : @world File) box_sizes epsilon margin_percent margin_px_limit
     use_rect_kernel_for_small rect_kernel_threshold,
     autoconfigure fit_predict box_sizes epsilon margin_percent margin_px_limit
       use_rect_kernel_for_small rect_kernel_threshold w = (ok tt, w') ->
     ∃ clusters top kernels,
       fit_predict epsilon box_sizes = ok clusters
       ∧ py_max clusters = ok top
       ∧ self_dict w' !! "morph_kernels_type" = Some (VList kernels)
       ∧ ∀ i, (0 <= i <= top)%Z ->
           ∃ group maxh maxw kernel,
             np_select box_sizes clusters i = ok group
             ∧ py_max group.*1 = ok maxh ∧ py_max group.*2 = ok maxw
             ∧ kernels !! Z.to_nat i = Some (VStr kernel)
             ∧ (kernel = "rectangles"
                ↔ use_rect_kernel_for_small = true
                  ∧ (maxh <= rect_kernel_threshold)%Z
                  ∧ (maxw <= rect_kernel_threshold)%Z)
             ∧ (kernel = "rectangles" ∨ kernel = "lines"))
  ∧ (∃ w',
       autoconfigure one_group [(25, 28)]%Z (VInt 5) 0.1 5 true 30
         fresh_instance = (ok tt, w')
       ∧ self_dict w' !! "morph_kernels_type"
         = Some (VList [VStr "rectangles"]))
  ∧ (∀ use_rect_kernel_for_small : bool,
       ∃ w',
         autoconfigure one_group [(35, 28)]%Z (VInt 5) 0.1 5
           use_rect_kernel_for_small 30 fresh_instance = (ok tt, w')
         ∧ self_dict w' !! "morph_kernels_type" = Some (VList [VStr "lines"])).
Proof.
  split; [|split].
  - intros File fit_predict w w' bs eps mp lim use thr H.
    apply autoconfigure_entries in H
      as (clusters & top & heights & widths & ratios & kernels
          & Hfit & Htop & _ & _ & _ & Hk & Hgroups).
    exists clusters, top, kernels.
    repeat (split; [assumption|]).
    intros i Hi.
    destruct (Hgroups i Hi)
      as (group & minh & maxh & minw & maxw & tminh & tmaxh & tminw & tmaxw
          & ? & _ & ? & _ & ? & _ & _ & _ & _ & _ & _ & _ & _ & _ & _ & _
          & Hki).
    exists group, maxh, maxw. eexists.
    repeat (split; [eassumption|]).
    destruct use; cbn [andb];
      [|split; [split; [discriminate|intros [[=] _]]|by right]].
    destruct (Z.leb_spec maxh thr) as [Hmh|Hmh]; cbn [andb];
      [destruct (Z.leb_spec maxw thr) as [Hmw|Hmw]|].
    + split; [split; [done|done]|by left].
    + split; [split; [discriminate|intros (_ & _ & ?); lia]|by right].
    + split; [split; [discriminate|intros (_ & ? & _); lia]|by right].
  - eexists. split; vm_compute; reflexivity.
  - intros []; eexists; split; vm_compute; reflexivity.
Qed.

Lemma kernel_policy_witness :
  ∃ clusters top kernels,
    one_group (VInt 5) [(25, 28)]%Z = ok clusters
    ∧ py_max clusters = ok top
    ∧ self_dict
        (autoconfigure one_group [(25, 28)]%Z (VInt 5) 0.1 5 true 30
           fresh_instance).2 !! "morph_kernels_type" = Some (VList kernels)
    ∧ ∀ i, (0 <= i <= top)%Z ->
        ∃ group maxh maxw kernel,
          np_select [(25, 28)]%Z clusters i = ok group
          ∧ py_max group.*1 = ok maxh ∧ py_max group.*2 = ok maxw
          ∧ kernels !! Z.to_nat i = Some (VStr kernel)
          ∧ (kernel = "rectangles"
             ↔ true = true ∧ (maxh <= 30)%Z ∧ (maxw <= 30)%Z)
          ∧ (kernel = "rectangles" ∨ kernel = "lines").
Proof.
  apply (proj1 kernel_policy (gmap string value) one_group fresh_instance _
           [(25, 28)]%Z (VInt 5) 0.1%float 5%Z true 30%Z).
  vm_compute. reflexivity.
Defined.



(** The stand-in serializer reads back every mapping of plain values. *)
Lemma mapping_reads_back_plain :
  yaml_reads_back_plain mapping_dump mapping_load.
Proof.
  intros d Hd. exists (map_to_list d). unfold mapping_load, mapping_dump.
  assert (forallb (fun kv : string * value => plain kv.2) (map_to_list d)
          = true) as ->.
  { apply forallb_forall. intros [k v] Hin%list_elem_of_In.
    apply elem_of_map_to_list in Hin. by apply (Hd k v). }
  split; [done|]. split; [apply NoDup_fst_map_to_list|].
  apply list_to_map_to_list.
Qed.

(** C1, as the code has it.  Let the instance of [w] be reachable by
    construction and by calls of [autoconfigure], [load_yaml] and
    [save_yaml] that return; let the attributes that [save_yaml] writes be
    plain values, as they are after construction and load (a calibration
    stores NumPy scalars); let no attribute of the instance be named
    [save_yaml]; let [path] be writable, and let the serializer read back
    the mappings of plain values that it wrote.  Then [c.save_yaml(path)]
    returns, and loading the written file, into any instance on which
    [load_yaml] and [update_num_iterations] can be called or into a new
    one ([PipelinesConfig(path)]), returns an instance with the same value
    as [w] for [num_iterations] and for every recognized parameter. *)
Theorem round_trip_persistence :
  ∀ (File : Type) (yaml_dump : gmap string value -> File)
    (yaml_load : File -> res (list (string * value)))
    (fit_predict : value -> list (Z * Z) -> res (list Z))
    (w : @world File) (path : string),
    reachable yaml_dump yaml_load fit_predict w ->
    plain_dict (saved_dict (self_dict w)) ->
    self_dict w !! "save_yaml" = None ->
    path ∉ unwritable w ->
    yaml_reads_back_plain yaml_dump yaml_load ->
    ∃ w1,
      invoke "save_yaml" (save_yaml yaml_dump path) w = (ok tt, w1)
      ∧ (∀ target suppress_warnings,
           files target !! path = files w1 !! path ->
           self_dict target !! "load_yaml" = None ->
           self_dict target !! "update_num_iterations" = None ->
           ∃ w2,
             invoke "load_yaml" (load_yaml yaml_load path suppress_warnings)
               target = (ok tt, w2)
             ∧ Forall (fun name =>
                         ∃ v, self_dict w !! name = Some v
                              ∧ self_dict w2 !! name = Some v)
                      ("num_iterations" :: recognized_fields))
      ∧ (path ≠ "" ->
         ∃ w2,
           new yaml_load (Some path) w1 = (ok tt, w2)
           ∧ Forall (fun name =>
                       ∃ v, self_dict w !! name = Some v
                            ∧ self_dict w2 !! name = Some v)
                    ("num_iterations" :: recognized_fields)).
Proof.
  intros File yaml_dump yaml_load fit_predict w path Hreach Hplain Hsv Hw Hyaml.
  destruct (reachable_invariants _ _ _ w Hreach) as (Hc & Hk & Hu).
  pose proof (Hyaml _ Hplain) as Hrt.
  assert (∀ w2 : @world File,
            (∀ name v, saved_key name = true ->
                       self_dict w !! name = Some v ->
                       self_dict w2 !! name = Some v) ->
            Forall (fun name =>
                      ∃ v, self_dict w !! name = Some v
                           ∧ self_dict w2 !! name = Some v)
                   ("num_iterations" :: recognized_fields)) as Hsame.
  { intros w2 Hw2.
    pose proof recognized_saved as Hs.
    apply Forall_cons in Hs as [Hnum Hs]. apply Forall_app in Hs as [Hs _].
    apply Forall_cons_2.
    - destruct Hc as (cvs & _ & Hn). eexists. split; [exact Hn|]. by apply Hw2.
    - unfold complete in Hk. rewrite Forall_forall in Hk, Hs.
      apply Forall_forall. intros name Hname.
      destruct (Hk name Hname) as [v Hv]. exists v. split; [done|].
      apply Hw2; [by apply Hs|done]. }
  destruct (save_load_round_trip yaml_dump yaml_load path false w Hc Hu Hw Hrt)
    as (w1 & Hsave & _ & _).
  exists w1. split; [by rewrite invoke_None|]. split.
  - intros target sw Hfile Hl Hut.
    destruct (save_load_round_trip yaml_dump yaml_load path sw w Hc Hu Hw Hrt)
      as (w1' & Hsave' & _ & Hload).
    assert (w1' = w1) as -> by congruence.
    destruct (Hload target Hfile Hut) as (w2 & Hrun & _ & Hw2).
    exists w2. split; [by rewrite invoke_None|]. by apply Hsame.
  - intros Hpath.
    destruct (save_new_round_trip yaml_dump yaml_load path w Hc Hu Hw Hpath Hrt)
      as (w1' & w2 & items & Hsave' & _ & _ & Hnew & _ & _ & Hw2 & _).
    assert (w1' = w1) as -> by congruence.
    exists w2. split; [done|]. by apply Hsame.
Qed.

Lemma round_trip_persistence_witness :
  let w :=
    (new mapping_load (Some "in.yaml")
       (World ∅
          {["in.yaml" :=
              ({["height_range" :=
                   VList [VTuple [VInt 50; VInt 60]; VTuple [VInt 60; VInt 70]]]}
               ∪ {["note" := VStr "two sizes"]} : gmap string value)]}
          ∅ [])).2 in
  ∃ w1,
    invoke "save_yaml" (save_yaml mapping_dump "config.yaml") w = (ok tt, w1)
    ∧ (∀ target suppress_warnings,
         files target !! "config.yaml" = files w1 !! "config.yaml" ->
         self_dict target !! "load_yaml" = None ->
         self_dict target !! "update_num_iterations" = None ->
         ∃ w2,
           invoke "load_yaml"
             (load_yaml mapping_load "config.yaml" suppress_warnings) target
           = (ok tt, w2)
           ∧ Forall (fun name =>
                       ∃ v, self_dict w !! name = Some v
                            ∧ self_dict w2 !! name = Some v)
                    ("num_iterations" :: recognized_fields))
    ∧ ("config.yaml" ≠ "" ->
       ∃ w2,
         new mapping_load (Some "config.yaml") w1 = (ok tt, w2)
         ∧ Forall (fun name =>
                     ∃ v, self_dict w !! name = Some v
                          ∧ self_dict w2 !! name = Some v)
                  ("num_iterations" :: recognized_fields)).
Proof.
  intros w.
  apply (round_trip_persistence (gmap string value) mapping_dump mapping_load
           one_group w "config.yaml").
  - apply (reach_new mapping_dump mapping_load one_group (Some "in.yaml")).
    vm_compute. reflexivity.
  - apply (bool_decide_unpack _). vm_compute. exact I.
  - vm_compute. reflexivity.
  - vm_compute. discriminate.
  - exact mapping_reads_back_plain.
Defined.

(** C1, as the specification states it, fails on two reachable instances.
    A calibrated instance is saved, but the file is not read back: the
    calibrated ranges are NumPy scalars, which the loader refuses, so both
    [PipelinesConfig(path)] and [load_yaml(path)] raise.  An instance
    constructed from a file with the key [save_yaml] has an attribute of
    that name, and [c.save_yaml(path)] raises [TypeError]. *)
Lemma round_trip_fails :
  (let w :=
     (invoke "autoconfigure"
        (autoconfigure one_group [(20, 40); (22, 30)]%Z (VInt 5) 0.1 5
           false 30) fresh_instance).2 in
   let saved :=
     invoke "save_yaml" (save_yaml mapping_dump "config.yaml") w in
   reachable mapping_dump mapping_load one_group w
   ∧ saved.1 = ok tt
   ∧ (new mapping_load (Some "config.yaml") saved.2).1 = throw YAMLError
   ∧ (invoke "load_yaml" (load_yaml mapping_load "config.yaml" false)
        saved.2).1 = throw YAMLError)
  ∧ (let w :=
       (new mapping_load (Some "in.yaml")
          (World ∅
             {["in.yaml" := ({["save_yaml" := VInt 1]} : gmap string value)]}
             ∅ [])).2 in
     reachable mapping_dump mapping_load one_group w
     ∧ (invoke "save_yaml" (save_yaml mapping_dump "config.yaml") w).1
       = throw TypeError).
Proof.
  split.
  - split.
    + apply (reach_autoconfigure mapping_dump mapping_load one_group
               fresh_instance [(20, 40); (22, 30)]%Z (VInt 5) 0.1%float
               5%Z false 30%Z).
      * apply (reach_new mapping_dump mapping_load one_group None
                 (World ∅ ∅ ∅ [])).
        vm_compute. reflexivity.
      * vm_compute. reflexivity.
    + split; [vm_compute; reflexivity|].
      split; vm_compute; reflexivity.
  - split.
    + apply (reach_new mapping_dump mapping_load one_group (Some "in.yaml")).
      vm_compute. reflexivity.
    + vm_compute. reflexivity.
Qed.

(** * Further properties *)

(** X1. Invariant of reachable instances.  An instance reachable by
    construction, calibration, load and save has every recognized
    parameter, and its [num_iterations] is the largest length among the
    nine counted fields, a scalar counting for 1: it is at least 1, no
    counted field is longer, and it is 1 or the length of one of them. *)
Theorem reachable_invariant :
  ∀ (File : Type) (yaml_dump : gmap string value -> File)
    (yaml_load : File -> res (list (string * value)))
    (fit_predict : value -> list (Z * Z) -> res (list Z)) (w : @world File),
    reachable yaml_dump yaml_load fit_predict w ->
    Forall (fun name => is_Some (self_dict w !! name)) recognized_fields
    ∧ ∃ cvs,
        values_of (self_dict w) counted_fields = Some cvs
        ∧ self_dict w !! "num_iterations" = Some (VInt (max_len cvs))
        ∧ (1 <= max_len cvs)%Z
        ∧ (∀ v, v ∈ cvs -> (field_len v <= max_len cvs)%Z)
        ∧ (max_len cvs = 1%Z ∨ ∃ v, v ∈ cvs ∧ field_len v = max_len cvs).
Proof.
  intros File yaml_dump yaml_load fit_predict w Hreach.
  destruct (reachable_consistent _ _ _ w Hreach) as [(cvs & Hcvs & Hnum) Hk].
  split; [exact Hk|]. exists cvs.
  split; [done|]. split; [done|]. split; [apply max_len_ge_1|].
  split; [intros v; apply max_len_ge|apply max_len_attained].
Qed.

Lemma reachable_invariant_witness :
  Forall (fun name => is_Some (self_dict fresh_instance !! name))
         recognized_fields
  ∧ ∃ cvs,
      values_of (self_dict fresh_instance) counted_fields = Some cvs
      ∧ self_dict fresh_instance !! "num_iterations"
        = Some (VInt (max_len cvs))
      ∧ (1 <= max_len cvs)%Z
      ∧ (∀ v, v ∈ cvs -> (field_len v <= max_len cvs)%Z)
      ∧ (max_len cvs = 1%Z ∨ ∃ v, v ∈ cvs ∧ field_len v = max_len cvs).
Proof.
  apply (reachable_invariant (gmap string value) mapping_dump mapping_load
           one_group).
  apply (reach_new mapping_dump mapping_load one_group None (World ∅ ∅ ∅ [])).
  vm_compute. reflexivity.
Defined.

(** X2. [update_num_iterations] on any instance: when the nine counted
    fields are there it returns and stores the largest of their lengths
    (at least 1), changing nothing else; when one of them is missing it
    raises [AttributeError] and leaves [num_iterations] at 1. *)
Theorem count_characterization :
  ∀ (File : Type) (w : @world File),
    (∀ cvs,
       values_of (self_dict w) counted_fields = Some cvs ->
       update_num_iterations w
       = (ok tt,
          set_self (<["num_iterations" := VInt (max_len cvs)]> (self_dict w)) w))
    ∧ (values_of (self_dict w) counted_fields = None ->
       update_num_iterations w
       = (throw AttributeError,
          set_self (<["num_iterations" := VInt 1]> (self_dict w)) w)).
Proof.
  intros File w. split.
  - intros cvs Hcvs. by rewrite update_num_iterations_eq, Hcvs.
  - intros Hnone. by rewrite update_num_iterations_eq, Hnone.
Qed.

(** X3. Attributes outside the nine counted fields do not count.  On an
    instance whose [update_num_iterations] can be called, assigning any
    value to an attribute that is neither a counted field nor
    [update_num_iterations] itself ([scaling_factors], [thickness],
    [group_size_range], [num_iterations], any other name) leaves the result
    of [c.update_num_iterations()], and the count it stores, as they
    were. *)
Theorem uncounted_fields_do_not_count :
  ∀ (File : Type) (w : @world File) (name : string) (v : value),
    name ∉ counted_fields ->
    name ≠ "update_num_iterations" ->
    self_dict w !! "update_num_iterations" = None ->
    (invoke "update_num_iterations" update_num_iterations
       (py_setattr name v w).2).1
    = (invoke "update_num_iterations" update_num_iterations w).1
    ∧ self_dict (invoke "update_num_iterations" update_num_iterations
                   (py_setattr name v w).2).2 !! "num_iterations"
      = self_dict (invoke "update_num_iterations" update_num_iterations w).2
          !! "num_iterations".
Proof.
  intros File w name v Hname Hupd Hu.
  destruct (decide (name ∈ reserved_names)) as [Hres|Hres].
  { destruct (py_setattr_reserved name v w Hres) as [e ->]. done. }
  rewrite py_setattr_eq by done. cbn [snd].
  rewrite !invoke_None
    by (cbn [self_dict set_self]; by rewrite ?lookup_insert_ne).
  rewrite !update_num_iterations_eq. cbn [self_dict set_self].
  rewrite values_of_insert_ne by done.
  destruct (values_of (self_dict w) counted_fields) as [cvs|];
    cbn [fst snd self_dict set_self]; by rewrite !lookup_insert_eq.
Qed.

Lemma uncounted_fields_do_not_count_witness :
  (invoke "update_num_iterations" update_num_iterations
     (py_setattr "num_iterations" (VList [VInt 1; VInt 2; VInt 3])
        fresh_instance).2).1
  = (invoke "update_num_iterations" update_num_iterations fresh_instance).1
  ∧ self_dict
      (invoke "update_num_iterations" update_num_iterations
         (py_setattr "num_iterations" (VList [VInt 1; VInt 2; VInt 3])
            fresh_instance).2).2 !! "num_iterations"
    = self_dict
        (invoke "update_num_iterations" update_num_iterations
           fresh_instance).2 !! "num_iterations".
Proof.
  apply (uncounted_fields_do_not_count (gmap string value)).
  - apply (bool_decide_unpack _). vm_compute. exact I.
  - discriminate.
  - vm_compute. reflexivity.
Defined.

(** X4. Warnings of [load_yaml].  Let the file be there and parse to
    items with distinct keys, none of them [update_num_iterations] or a
    name that [setattr] refuses, on an instance that has the counted
    fields and on which [load_yaml] and [update_num_iterations] can be
    called.  Then [c.load_yaml(path)] returns; with [suppress_warnings] off
    it prints exactly one warning line for each loaded key that was no
    attribute of the instance, and for no other key; with
    [suppress_warnings] on it prints nothing. *)
Theorem load_reports_new_keys :
  ∀ (File : Type) (yaml_load : File -> res (list (string * value)))
    (w : @world File) (path : string) (suppress_warnings : bool)
    (file : File) (items : list (string * value)) (cvs : list value),
    files w !! path = Some file ->
    yaml_load file = ok items ->
    values_of (self_dict w) counted_fields = Some cvs ->
    NoDup items.*1 ->
    Forall (fun key => key ∉ "update_num_iterations" :: reserved_names)
           items.*1 ->
    self_dict w !! "load_yaml" = None ->
    self_dict w !! "update_num_iterations" = None ->
    ∃ w' keys,
      invoke "load_yaml" (load_yaml yaml_load path suppress_warnings) w
      = (ok tt, w')
      ∧ stdout w'
        = stdout w ++ (if suppress_warnings then [] else warning <$> keys)
      ∧ NoDup keys
      ∧ ∀ key, key ∈ keys ↔ key ∈ items.*1 ∧ self_dict w !! key = None.
Proof.
  intros File yaml_load w path sw file items cvs Hfile Hitems Hcvs Hnd Hkeys
    Hl Hu.
  destruct (load_yaml_run yaml_load path sw w file items cvs Hfile Hitems Hcvs)
    as (cvs' & _ & Hrun); [| |done|].
  { rewrite Forall_forall in Hkeys. apply Forall_forall. intros kv Hkv.
    assert (kv.1 ∈ items.*1) as Hin by (apply list_elem_of_fmap; eauto).
    apply Hkeys in Hin. apply not_elem_of_cons in Hin as [_ ?]. done. }
  { rewrite Forall_forall in Hkeys. intros Hin.
    apply Hkeys in Hin. apply not_elem_of_cons in Hin as [? _]. done. }
  eexists _, (new_keys (self_dict w) items).
  split; [rewrite invoke_None by done; exact Hrun|]. split; [reflexivity|].
  split; [by apply NoDup_new_keys|].
  intros key. rewrite elem_of_new_keys by done. by rewrite not_elem_of_dom.
Qed.

Lemma load_reports_new_keys_witness :
  let file : gmap string value :=
    {["foo" := VInt 7]} ∪ {["thickness" := VInt 3]} ∪ {["bar" := VNone]} in
  let w := World (self_dict fresh_instance) {["extra.yaml" := file]} ∅ [] in
  let items := map_to_list file in
  ∃ w' keys,
    invoke "load_yaml" (load_yaml mapping_load "extra.yaml" false) w
    = (ok tt, w')
    ∧ stdout w' = stdout w ++ (if false then [] else warning <$> keys)
    ∧ NoDup keys
    ∧ ∀ key, key ∈ keys ↔ key ∈ items.*1 ∧ self_dict w !! key = None.
Proof.
  intros file w items.
  apply (load_reports_new_keys (gmap string value) mapping_load w
           "extra.yaml" false file items
           [VList [VTuple [VInt 40; VInt 50]]; VList [VTuple [VInt 50; VInt 60]];
            VList [VTuple [VFloat 0.65; VFloat 0.1]];
            VList [VTuple [VInt 2; VInt 2]]; VList [VInt 0];
            VList [VStr "lines"]; VList [VInt 80]; VList [VInt 1];
            VList [VInt 10]]).
  - vm_compute. reflexivity.
  - vm_compute. reflexivity.
  - vm_compute. reflexivity.
  - apply NoDup_fst_map_to_list.
  - apply (bool_decide_unpack _). vm_compute. exact I.
  - vm_compute. reflexivity.
  - vm_compute. reflexivity.
Defined.

(** X5. What [load_yaml] sets.  Under the conditions of X4, after the load
    every loaded key other than [num_iterations] has its loaded value,
    every attribute that is not loaded keeps its value, the files are
    untouched, and [num_iterations] is the count of the fields as they are
    after the load (a loaded [num_iterations] is overwritten). *)
Theorem load_overwrites_loaded_keys :
  ∀ (File : Type) (yaml_load : File -> res (list (string * value)))
    (w : @world File) (path : string) (suppress_warnings : bool)
    (file : File) (items : list (string * value)) (cvs : list value),
    files w !! path = Some file ->
    yaml_load file = ok items ->
    values_of (self_dict w) counted_fields = Some cvs ->
    NoDup items.*1 ->
    Forall (fun key => key ∉ "update_num_iterations" :: reserved_names)
           items.*1 ->
    self_dict w !! "load_yaml" = None ->
    self_dict w !! "update_num_iterations" = None ->
    ∃ w' cvs',
      invoke "load_yaml" (load_yaml yaml_load path suppress_warnings) w
      = (ok tt, w')
      ∧ files w' = files w
      ∧ (∀ key v, (key, v) ∈ items -> key ≠ "num_iterations" ->
                  self_dict w' !! key = Some v)
      ∧ (∀ key, key ∉ items.*1 -> key ≠ "num_iterations" ->
                self_dict w' !! key = self_dict w !! key)
      ∧ values_of (self_dict w') counted_fields = Some cvs'
      ∧ self_dict w' !! "num_iterations" = Some (VInt (max_len cvs')).
Proof.
  intros File yaml_load w path sw file items cvs Hfile Hitems Hcvs Hnd Hkeys
    Hl Hu.
  destruct (load_yaml_run yaml_load path sw w file items cvs Hfile Hitems Hcvs)
    as (cvs' & Hcvs' & Hrun); [| |done|].
  { rewrite Forall_forall in Hkeys. apply Forall_forall. intros kv Hkv.
    assert (kv.1 ∈ items.*1) as Hin by (apply list_elem_of_fmap; eauto).
    apply Hkeys in Hin. apply not_elem_of_cons in Hin as [_ ?]. done. }
  { rewrite Forall_forall in Hkeys. intros Hin.
    apply Hkeys in Hin. apply not_elem_of_cons in Hin as [? _]. done. }
  eexists _, cvs'. split; [rewrite invoke_None by done; exact Hrun|].
  cbn [self_dict files].
  split; [done|]. split; [|split; [|split]].
  - intros key v Hin Hkey. rewrite lookup_insert_ne by done.
    rewrite lookup_foldl_insert by done.
    by rewrite (elem_of_list_to_map_1 _ _ _ Hnd Hin).
  - intros key Hout Hkey. rewrite lookup_insert_ne by done.
    rewrite lookup_foldl_insert by done.
    by rewrite (not_elem_of_list_to_map_1 _ _ Hout).
  - by rewrite values_of_insert_ne by apply counted_fields_not_num.
  - apply lookup_insert_eq.
Qed.

Lemma load_overwrites_loaded_keys_witness :
  let file : gmap string value :=
    {["height_range" :=
        VList [VTuple [VInt 50; VInt 60]; VTuple [VInt 60; VInt 70]]]}
    ∪ {["num_iterations" := VInt 7]} ∪ {["foo" := VInt 7]} in
  let w := World (self_dict fresh_instance) {["extra.yaml" := file]} ∅ [] in
  let items := map_to_list file in
  ∃ w' cvs',
    invoke "load_yaml" (load_yaml mapping_load "extra.yaml" true) w
    = (ok tt, w')
    ∧ files w' = files w
    ∧ (∀ key v, (key, v) ∈ items -> key ≠ "num_iterations" ->
                self_dict w' !! key = Some v)
    ∧ (∀ key, key ∉ items.*1 -> key ≠ "num_iterations" ->
              self_dict w' !! key = self_dict w !! key)
    ∧ values_of (self_dict w') counted_fields = Some cvs'
    ∧ self_dict w' !! "num_iterations" = Some (VInt (max_len cvs')).
Proof.
  intros file w items.
  apply (load_overwrites_loaded_keys (gmap string value) mapping_load w
           "extra.yaml" true file items
           [VList [VTuple [VInt 40; VInt 50]]; VList [VTuple [VInt 50; VInt 60]];
            VList [VTuple [VFloat 0.65; VFloat 0.1]];
            VList [VTuple [VInt 2; VInt 2]]; VList [VInt 0];
            VList [VStr "lines"]; VList [VInt 80]; VList [VInt 1];
            VList [VInt 10]]).
  - vm_compute. reflexivity.
  - vm_compute. reflexivity.
  - vm_compute. reflexivity.
  - apply NoDup_fst_map_to_list.
  - apply (bool_decide_unpack _). vm_compute. exact I.
  - vm_compute. reflexivity.
  - vm_compute. reflexivity.
Defined.

(** X6. Failures of [load_yaml].  When the file is missing [load_yaml]
    raises [OSError]; when the file does not parse it raises the parser's
    exception; in both cases the instance, the files and the output are
    unchanged. *)
Theorem load_failure_changes_nothing :
  ∀ (File : Type) (yaml_load : File -> res (list (string * value)))
    (w : @world File) (path : string) (suppress_warnings : bool),
    (files w !! path = None ->
     load_yaml yaml_load path suppress_warnings w = (throw OSError, w))
    ∧ (∀ file e,
         files w !! path = Some file -> yaml_load file = throw e ->
         load_yaml yaml_load path suppress_warnings w = (throw e, w)).
Proof. intros. apply load_yaml_throw. Qed.

(** X7. Attributes whose name starts with two underscores are not
    persisted.  Let the instance be reachable, its saved attributes plain
    values and none of its attributes named [save_yaml]; let [path] be
    writable and not empty, and let the serializer read back the mappings
    of plain values that it wrote.  Then [c.save_yaml(path)] returns,
    [PipelinesConfig(path)] returns, and the constructed instance has the
    value of every attribute whose name does not start with [__], and has
    no attribute whose name does. *)
Theorem dunder_attributes_not_persisted :
  ∀ (File : Type) (yaml_dump : gmap string value -> File)
    (yaml_load : File -> res (list (string * value)))
    (fit_predict : value -> list (Z * Z) -> res (list Z))
    (w : @world File) (path : string),
    reachable yaml_dump yaml_load fit_predict w ->
    plain_dict (saved_dict (self_dict w)) ->
    self_dict w !! "save_yaml" = None ->
    path ∉ unwritable w ->
    path ≠ "" ->
    yaml_reads_back_plain yaml_dump yaml_load ->
    ∃ w1 w2,
      invoke "save_yaml" (save_yaml yaml_dump path) w = (ok tt, w1)
      ∧ new yaml_load (Some path) w1 = (ok tt, w2)
      ∧ ∀ key v,
          self_dict w !! key = Some v ->
          self_dict w2 !! key
          = if String.prefix "__" key then None else Some v.
Proof.
  intros File yaml_dump yaml_load fit_predict w path Hreach Hplain Hsv Hw Hpath
    Hyaml.
  destruct (reachable_invariants _ _ _ w Hreach) as (Hc & _ & Hu).
  destruct (save_new_round_trip yaml_dump yaml_load path w Hc Hu Hw Hpath
              (Hyaml _ Hplain))
    as (w1 & w2 & items & Hsave & _ & _ & Hnew & _ & _ & Hsame & Hlookup).
  exists w1, w2. split; [by rewrite invoke_None|]. split; [done|].
  intros key v Hv. destruct (String.prefix "__" key) eqn:Hp.
  - destruct (recognized_not_dunder key Hp) as [Hrec Hnum].
    rewrite Hlookup, saved_dict_lookup, Hp by done.
    by apply with_defaults_lookup_None.
  - apply Hsame; [|done]. unfold saved_key, callable_key. by rewrite Hp.
Qed.

Lemma dunder_attributes_not_persisted_witness :
  let w :=
    (new mapping_load (Some "in.yaml")
       (World ∅
          {["in.yaml" :=
              ({["__note" := VStr "draft"]}
               ∪ {["height_range" :=
                     VList [VTuple [VInt 50; VInt 60]; VTuple [VInt 60; VInt 70]]]}
               : gmap string value)]} ∅ [])).2 in
  ∃ w1 w2,
    invoke "save_yaml" (save_yaml mapping_dump "out.yaml") w = (ok tt, w1)
    ∧ new mapping_load (Some "out.yaml") w1 = (ok tt, w2)
    ∧ ∀ key v,
        self_dict w !! key = Some v ->
        self_dict w2 !! key = if String.prefix "__" key then None else Some v.
Proof.
  intros w.
  apply (dunder_attributes_not_persisted (gmap string value) mapping_dump
           mapping_load one_group w "out.yaml").
  - apply (reach_new mapping_dump mapping_load one_group (Some "in.yaml")).
    vm_compute. reflexivity.
  - apply (bool_decide_unpack _). vm_compute. exact I.
  - vm_compute. reflexivity.
  - vm_compute. discriminate.
  - discriminate.
  - exact mapping_reads_back_plain.
Defined.

(** X8. Calibration is all or nothing.  On an instance that has the nine
    counted fields and on which [autoconfigure] and [update_num_iterations]
    can be called, a call [c.autoconfigure(...)] that raises, for whatever
    sample and whatever the clustering returns, leaves the instance, the
    files and the output exactly as they were. *)
Theorem calibration_is_all_or_nothing :
  ∀ (File : Type) (fit_predict : value -> list (Z * Z) -> res (list Z))
    (w w' : @world File) box_sizes epsilon margin_percent margin_px_limit
    use_rect_kernel_for_small rect_kernel_threshold (cvs : list value)
    (e : exn),
    values_of (self_dict w) counted_fields = Some cvs ->
    self_dict w !! "autoconfigure" = None ->
    self_dict w !! "update_num_iterations" = None ->
    invoke "autoconfigure"
      (autoconfigure fit_predict box_sizes epsilon margin_percent
         margin_px_limit use_rect_kernel_for_small rect_kernel_threshold) w
    = (throw e, w') ->
    w' = w.
Proof.
  intros File fit_predict w w' bs eps mp lim use thr cvs e Hcvs Ha Hu Hrun.
  rewrite invoke_None in Hrun by done.
  by eapply autoconfigure_throw_inv.
Qed.

Lemma calibration_is_all_or_nothing_witness :
  let w :=
    (setattr "dilation_iterations" (VList [VInt 0; VInt 1; VInt 2])
       fresh_instance).2 in
  (invoke "autoconfigure"
     (autoconfigure (fixed_labels [0; 2]%Z) [(20, 40); (22, 30)]%Z (VInt 5)
        0.1 5 false 30) w).2
  = w.
Proof.
  intros w.
  apply (calibration_is_all_or_nothing (gmap string value)
           (fixed_labels [0; 2]%Z) w _ [(20, 40); (22, 30)]%Z
           (VInt 5) 0.1%float 5%Z false 30%Z
           [VList [VTuple [VInt 40; VInt 50]]; VList [VTuple [VInt 50; VInt 60]];
            VList [VTuple [VFloat 0.65; VFloat 0.1]];
            VList [VTuple [VInt 2; VInt 2]];
            VList [VInt 0; VInt 1; VInt 2];
            VList [VStr "lines"]; VList [VInt 80]; VList [VInt 1];
            VList [VInt 10]]
           ValueError).
  - vm_compute. reflexivity.
  - vm_compute. reflexivity.
  - vm_compute. reflexivity.
  - vm_compute. reflexivity.
Defined.

(** X9. What a successful calibration changes.  It leaves the files, the
    output and every attribute other than [width_range], [height_range],
    [wh_ratio_range], [morph_kernels_type] and [num_iterations] as they
    were; each of the four calibrated fields becomes a list with one entry
    per label 0..top, where top is the largest label; and the recomputed
    count is at least the number of labels. *)
Theorem calibration_frame :
  ∀ (File : Type) (fit_predict : value -> list (Z * Z) -> res (list Z))
    (w w' : @world File) box_sizes epsilon margin_percent margin_px_limit
    use_rect_kernel_for_small rect_kernel_threshold,
    autoconfigure fit_predict box_sizes epsilon margin_percent margin_px_limit
      use_rect_kernel_for_small rect_kernel_threshold w = (ok tt, w') ->
    ∃ clusters top heights widths ratios kernels n,
      fit_predict epsilon box_sizes = ok clusters
      ∧ py_max clusters = ok top
      ∧ (0 <= top)%Z
      ∧ self_dict w' !! "height_range" = Some (VList heights)
      ∧ self_dict w' !! "width_range" = Some (VList widths)
      ∧ self_dict w' !! "wh_ratio_range" = Some (VList ratios)
      ∧ self_dict w' !! "morph_kernels_type" = Some (VList kernels)
      ∧ length heights = Z.to_nat (top + 1)
      ∧ length widths = Z.to_nat (top + 1)
      ∧ length ratios = Z.to_nat (top + 1)
      ∧ length kernels = Z.to_nat (top + 1)
      ∧ self_dict w' !! "num_iterations" = Some (VInt n)
      ∧ (top + 1 <= n)%Z
      ∧ files w' = files w ∧ unwritable w' = unwritable w
      ∧ stdout w' = stdout w
      ∧ ∀ name,
          name ∉ ["width_range"; "height_range"; "wh_ratio_range";
                  "morph_kernels_type"; "num_iterations"] ->
          self_dict w' !! name = self_dict w !! name.
Proof.
  intros File fit_predict w w' bs eps mp lim use thr H.
  pose proof (autoconfigure_frame _ _ _ _ _ _ _ _ _ H) as (Hf & Hu & Hs & Hframe).
  pose proof (autoconfigure_consistent _ _ _ _ _ _ _ _ _ H)
    as [(cvs & Hcvs & Hnum) _].
  apply autoconfigure_groups in H
    as (clusters & top & heights & widths & ratios & kernels
        & Hfit & Htop & Hpos & Hh & Hw & Hr & Hk & Hlh & Hlw & Hlr & Hlk & _).
  exists clusters, top, heights, widths, ratios, kernels, (max_len cvs).
  repeat (split; [assumption|]).
  split; [|by repeat (split; [assumption|])].
  transitivity (field_len (VList heights)); [cbn [field_len]; lia|].
  apply max_len_ge.
  apply mapM_Some in Hcvs. unfold counted_fields in Hcvs.
  apply Forall2_cons_inv_l in Hcvs as (v1 & cvs1 & _ & Hcvs & ->).
  apply Forall2_cons_inv_l in Hcvs as (v2 & cvs2 & Hv2 & _ & ->).
  assert (v2 = VList heights) as -> by congruence.
  right. by left.
Qed.

Lemma calibration_frame_witness :
  let w' :=
    (autoconfigure (fixed_labels [0; 1; 0]%Z) [(20, 40); (35, 28); (22, 30)]%Z
       (VInt 5) 0.1 5 false 30 fresh_instance).2 in
  ∃ clusters top heights widths ratios kernels n,
    fixed_labels [0; 1; 0]%Z (VInt 5) [(20, 40); (35, 28); (22, 30)]%Z
    = ok clusters
    ∧ py_max clusters = ok top
    ∧ (0 <= top)%Z
    ∧ self_dict w' !! "height_range" = Some (VList heights)
    ∧ self_dict w' !! "width_range" = Some (VList widths)
    ∧ self_dict w' !! "wh_ratio_range" = Some (VList ratios)
    ∧ self_dict w' !! "morph_kernels_type" = Some (VList kernels)
    ∧ length heights = Z.to_nat (top + 1)
    ∧ length widths = Z.to_nat (top + 1)
    ∧ length ratios = Z.to_nat (top + 1)
    ∧ length kernels = Z.to_nat (top + 1)
    ∧ self_dict w' !! "num_iterations" = Some (VInt n)
    ∧ (top + 1 <= n)%Z
    ∧ files w' = files fresh_instance
    ∧ unwritable w' = unwritable fresh_instance
    ∧ stdout w' = stdout fresh_instance
    ∧ ∀ name,
        name ∉ ["width_range"; "height_range"; "wh_ratio_range";
                "morph_kernels_type"; "num_iterations"] ->
        self_dict w' !! name = self_dict fresh_instance !! name.
Proof.
  intros w'.
  apply (calibration_frame (gmap string value) (fixed_labels [0; 1; 0]%Z)
           fresh_instance w' [(20, 40); (35, 28); (22, 30)]%Z (VInt 5)
           0.1%float 5%Z false 30%Z).
  vm_compute. reflexivity.
Defined.

(** X10. The calibrated ranges contain the measured points.  After a
    successful calibration with a non-negative [margin_px_limit], products
    [size * margin_percent] that are not below zero, and sizes that stay
    [margin_px_limit] away from both ends of the 64-bit range, every point
    of the sample with a label [i >= 0] has its height within the stored
    height range of [i] and its width within the stored width range of
    [i]. *)
Theorem calibrated_ranges_contain_points :
  ∀ (File : Type) (fit_predict : value -> list (Z * Z) -> res (list Z))
    (w w' : @world File) box_sizes epsilon margin_percent margin_px_limit
    use_rect_kernel_for_small rect_kernel_threshold,
    autoconfigure fit_predict box_sizes epsilon margin_percent margin_px_limit
      use_rect_kernel_for_small rect_kernel_threshold w = (ok tt, w') ->
    (0 <= margin_px_limit)%Z ->
    (∀ p, p ∈ box_sizes ->
          (float_of_Z p.1 * margin_percent <? 0)%float = false
          ∧ (float_of_Z p.2 * margin_percent <? 0)%float = false) ->
    (∀ p, p ∈ box_sizes ->
          (- 2 ^ 63 + margin_px_limit <= p.1 < 2 ^ 63 - margin_px_limit)%Z
          ∧ (- 2 ^ 63 + margin_px_limit <= p.2 < 2 ^ 63 - margin_px_limit)%Z) ->
    ∃ clusters heights widths,
      fit_predict epsilon box_sizes = ok clusters
      ∧ self_dict w' !! "height_range" = Some (VList heights)
      ∧ self_dict w' !! "width_range" = Some (VList widths)
      ∧ ∀ k p i,
          box_sizes !! k = Some p -> clusters !! k = Some i -> (0 <= i)%Z ->
          ∃ lo_h hi_h lo_w hi_w,
            heights !! Z.to_nat i = Some (VTuple [VInt64 lo_h; VInt64 hi_h])
            ∧ widths !! Z.to_nat i = Some (VTuple [VInt64 lo_w; VInt64 hi_w])
            ∧ (lo_h <= p.1 <= hi_h)%Z ∧ (lo_w <= p.2 <= hi_w)%Z.
Proof.
  intros File fit_predict w w' bs eps mp lim use thr H Hlim Hpos Hfit.
  by eapply autoconfigure_contains.
Qed.

Lemma calibrated_ranges_contain_points_witness :
  let box_sizes := [(20, 40); (35, 28); (22, 30)]%Z in
  let w' :=
    (autoconfigure (fixed_labels [0; 1; 0]%Z) box_sizes (VInt 5) 0.1 5 false 30
       fresh_instance).2 in
  ∃ clusters heights widths,
    fixed_labels [0; 1; 0]%Z (VInt 5) box_sizes = ok clusters
    ∧ self_dict w' !! "height_range" = Some (VList heights)
    ∧ self_dict w' !! "width_range" = Some (VList widths)
    ∧ ∀ k p i,
        box_sizes !! k = Some p -> clusters !! k = Some i -> (0 <= i)%Z ->
        ∃ lo_h hi_h lo_w hi_w,
          heights !! Z.to_nat i = Some (VTuple [VInt64 lo_h; VInt64 hi_h])
          ∧ widths !! Z.to_nat i = Some (VTuple [VInt64 lo_w; VInt64 hi_w])
          ∧ (lo_h <= p.1 <= hi_h)%Z ∧ (lo_w <= p.2 <= hi_w)%Z.
Proof.
  intros box_sizes w'.
  apply (calibrated_ranges_contain_points (gmap string value)
           (fixed_labels [0; 1; 0]%Z) fresh_instance w' box_sizes (VInt 5)
           0.1%float 5%Z false 30%Z).
  - vm_compute. reflexivity.
  - lia.
  - intros p Hp. unfold box_sizes in Hp.
    repeat (apply elem_of_cons in Hp as [->|Hp];
            [split; vm_compute; reflexivity|]).
    by apply elem_of_nil in Hp.
  - intros p Hp. unfold box_sizes in Hp.
    repeat (apply elem_of_cons in Hp as [->|Hp]; [cbn [fst snd]; lia|]).
    by apply elem_of_nil in Hp.
Defined.

(** X11. The tuples of the expansion, exactly.  Let no attribute of the
    instance be named [update_num_iterations] or
    [_PipelinesConfig__conv_to_list], so that both methods can be called.
    With the nine expanded fields [vs] present (in the order width_range,
    height_range, wh_ratio_range, dilation_iterations, dilation_kernel,
    vertical_max_distance, horizontal_max_distance, morph_kernels_type,
    morph_kernels_thickness) and none an empty list, the tuple at index [j]
    holds, field by field in that order: the element at [j] of a list that
    has [num_iterations] elements, the first element of a shorter list,
    and the field itself for a scalar. *)
Theorem broadcast_exact :
  ∀ (File : Type) (w : @world File) (vs : list value),
    self_dict w !! "update_num_iterations" = None ->
    self_dict w !! "_PipelinesConfig__conv_to_list" = None ->
    values_of (self_dict w) variables_list_fields = Some vs ->
    Forall (fun v => v ≠ VList []) vs ->
    ∃ z w' n tuples z',
      variables_as_iterators w = (ok z, w')
      ∧ self_dict w' !! "num_iterations" = Some (VInt n)
      ∧ py_list z = (tuples, z')
      ∧ Z.of_nat (length tuples) = n
      ∧ ∀ j t, tuples !! j = Some t ->
               Forall2 (fun v x => broadcast_at n j v = Some x) vs t.
Proof.
  intros File w vs Hu Hc Hvs Hne.
  destruct (variables_as_iterators_exact w vs Hu Hc Hvs Hne)
    as (z & tuples & z' & Hrun & Hlist & Hlen & Htuples).
  exists z. eexists _, (max_len vs), tuples, z'.
  split; [exact Hrun|]. split; [cbn; apply lookup_insert_eq|].
  split; [done|]. split; [done|]. exact Htuples.
Qed.

Lemma broadcast_exact_witness :
  let w :=
    (setattr "height_range"
       (VList [VTuple [VInt 50; VInt 60]; VTuple [VInt 60; VInt 70]])
       fresh_instance).2 in
  let vs :=
    [VList [VTuple [VInt 40; VInt 50]];
     VList [VTuple [VInt 50; VInt 60]; VTuple [VInt 60; VInt 70]];
     VList [VTuple [VFloat 0.65; VFloat 0.1]]; VList [VInt 0];
     VList [VTuple [VInt 2; VInt 2]]; VList [VInt 10]; VList [VInt 80];
     VList [VStr "lines"]; VList [VInt 1]] in
  ∃ z w' n tuples z',
    variables_as_iterators w = (ok z, w')
    ∧ self_dict w' !! "num_iterations" = Some (VInt n)
    ∧ py_list z = (tuples, z')
    ∧ Z.of_nat (length tuples) = n
    ∧ ∀ j t, tuples !! j = Some t ->
             Forall2 (fun v x => broadcast_at n j v = Some x) vs t.
Proof.
  intros w vs.
  apply (broadcast_exact (gmap string value) w vs).
  - vm_compute. reflexivity.
  - vm_compute. reflexivity.
  - vm_compute. reflexivity.
  - unfold vs. repeat (apply Forall_cons_2; [discriminate|]).
    apply Forall_nil_2.
Defined.

(** X12. Constructing from a saved file warns.  Let the instance be
    reachable, its saved attributes plain values and none of its attributes
    named [save_yaml]; let [path] be writable and not empty, and let the
    serializer read back the mappings of plain values that it wrote, with
    distinct keys.  Then [c.save_yaml(path)] and [PipelinesConfig(path)]
    return, and the constructor prints exactly one warning for each saved
    attribute that is not one of the twelve recognized parameters, and for
    no other key.  [num_iterations] is always among them, because
    [__init__] loads before the count is first stored. *)
Theorem constructor_warns_for_saved_count :
  ∀ (File : Type) (yaml_dump : gmap string value -> File)
    (yaml_load : File -> res (list (string * value)))
    (fit_predict : value -> list (Z * Z) -> res (list Z))
    (w : @world File) (path : string),
    reachable yaml_dump yaml_load fit_predict w ->
    plain_dict (saved_dict (self_dict w)) ->
    self_dict w !! "save_yaml" = None ->
    path ∉ unwritable w ->
    path ≠ "" ->
    yaml_reads_back_plain yaml_dump yaml_load ->
    ∃ w1 w2 keys,
      invoke "save_yaml" (save_yaml yaml_dump path) w = (ok tt, w1)
      ∧ new yaml_load (Some path) w1 = (ok tt, w2)
      ∧ stdout w2 = stdout w ++ (warning <$> keys)
      ∧ NoDup keys
      ∧ (∀ key, key ∈ keys ↔ saved_key key = true
                              ∧ is_Some (self_dict w !! key)
                              ∧ key ∉ recognized_fields)
      ∧ "num_iterations" ∈ keys.
Proof.
  intros File yaml_dump yaml_load fit_predict w path Hreach Hplain Hsv Hw Hpath
    Hyaml.
  destruct (reachable_invariants _ _ _ w Hreach) as (Hc & _ & Hu).
  destruct (save_new_round_trip yaml_dump yaml_load path w Hc Hu Hw Hpath
              (Hyaml _ Hplain))
    as (w1 & w2 & items & Hsave & Hnd & Hmap & Hnew & _ & Hout & _).
  assert (∀ key, key ∈ new_keys (with_defaults ∅) items
                 ↔ saved_key key = true ∧ is_Some (self_dict w !! key)
                   ∧ key ∉ recognized_fields) as Hkeys.
  { intros key. rewrite elem_of_new_keys by done.
    rewrite (saved_items_keys (self_dict w) items key Hmap).
    rewrite not_elem_of_dom, with_defaults_lookup_None, lookup_empty.
    unfold saved_key, callable_key.
    destruct (String.prefix "__" key); cbn [negb andb]; intuition congruence. }
  exists w1, w2, (new_keys (with_defaults ∅) items).
  split; [by rewrite invoke_None|]. split; [done|]. split; [done|].
  split; [by apply NoDup_new_keys|]. split; [exact Hkeys|].
  apply Hkeys. split; [reflexivity|]. split.
  - destruct Hc as (cvs & _ & Hnum). by eexists.
  - apply (bool_decide_unpack _). vm_compute. exact I.
Qed.

Lemma constructor_warns_for_saved_count_witness :
  let w :=
    (new mapping_load (Some "in.yaml")
       (World ∅
          {["in.yaml" :=
              ({["height_range" :=
                   VList [VTuple [VInt 50; VInt 60]; VTuple [VInt 60; VInt 70]]]}
               ∪ {["note" := VStr "two sizes"]} : gmap string value)]}
          ∅ [])).2 in
  ∃ w1 w2 keys,
    invoke "save_yaml" (save_yaml mapping_dump "config.yaml") w = (ok tt, w1)
    ∧ new mapping_load (Some "config.yaml") w1 = (ok tt, w2)
    ∧ stdout w2 = stdout w ++ (warning <$> keys)
    ∧ NoDup keys
    ∧ (∀ key, key ∈ keys ↔ saved_key key = true
                            ∧ is_Some (self_dict w !! key)
                            ∧ key ∉ recognized_fields)
    ∧ "num_iterations" ∈ keys.
Proof.
  intros w.
  apply (constructor_warns_for_saved_count (gmap string value) mapping_dump
           mapping_load one_group w "config.yaml").
  - apply (reach_new mapping_dump mapping_load one_group (Some "in.yaml")).
    vm_compute. reflexivity.
  - apply (bool_decide_unpack _). vm_compute. exact I.
  - vm_compute. reflexivity.
  - vm_compute. discriminate.
  - discriminate.
  - exact mapping_reads_back_plain.
Defined.

(** X13. Calibrating a new instance, then expanding it.  After a
    successful [autoconfigure] on [PipelinesConfig()], the count is the
    number of labels, [variables_as_iterators] returns, and consuming it
    yields one tuple per label: the tuple at [j] carries the calibrated
    width range, height range, ratio range and kernel of label [j],
    together with the defaults of the five other fields. *)
Theorem calibrate_then_expand_new_instance :
  ∀ (File : Type) (yaml_load : File -> res (list (string * value)))
    (fit_predict : value -> list (Z * Z) -> res (list Z))
    (w0 w' : @world File) box_sizes epsilon margin_percent margin_px_limit
    use_rect_kernel_for_small rect_kernel_threshold,
    autoconfigure fit_predict box_sizes epsilon margin_percent margin_px_limit
      use_rect_kernel_for_small rect_kernel_threshold
      (new yaml_load None w0).2
    = (ok tt, w') ->
    ∃ clusters top heights widths ratios kernels z w'' tuples z',
      fit_predict epsilon box_sizes = ok clusters
      ∧ py_max clusters = ok top
      ∧ self_dict w' !! "height_range" = Some (VList heights)
      ∧ self_dict w' !! "width_range" = Some (VList widths)
      ∧ self_dict w' !! "wh_ratio_range" = Some (VList ratios)
      ∧ self_dict w' !! "morph_kernels_type" = Some (VList kernels)
      ∧ self_dict w' !! "num_iterations" = Some (VInt (top + 1))
      ∧ variables_as_iterators w' = (ok z, w'')
      ∧ py_list z = (tuples, z')
      ∧ Z.of_nat (length tuples) = (top + 1)%Z
      ∧ ∀ j t, tuples !! j = Some t ->
          ∃ wd h r k,
            widths !! j = Some wd ∧ heights !! j = Some h
            ∧ ratios !! j = Some r ∧ kernels !! j = Some k
            ∧ t = [wd; h; r; VInt 0; VTuple [VInt 2; VInt 2]; VInt 10;
                   VInt 80; k; VInt 1].
Proof.
  intros File yaml_load fit_predict w0 w' bs eps mp lim use thr H.
  by eapply calibrate_then_expand.
Qed.

Lemma calibrate_then_expand_new_instance_witness :
  let box_sizes := [(20, 40); (35, 28); (22, 30)]%Z in
  let w' :=
    (autoconfigure (fixed_labels [0; 1; 0]%Z) box_sizes (VInt 5) 0.1 5 false 30
       (new mapping_load None (World ∅ ∅ ∅ [])).2).2 in
  ∃ clusters top heights widths ratios kernels z w'' tuples z',
    fixed_labels [0; 1; 0]%Z (VInt 5) box_sizes = ok clusters
    ∧ py_max clusters = ok top
    ∧ self_dict w' !! "height_range" = Some (VList heights)
    ∧ self_dict w' !! "width_range" = Some (VList widths)
    ∧ self_dict w' !! "wh_ratio_range" = Some (VList ratios)
    ∧ self_dict w' !! "morph_kernels_type" = Some (VList kernels)
    ∧ self_dict w' !! "num_iterations" = Some (VInt (top + 1))
    ∧ variables_as_iterators w' = (ok z, w'')
    ∧ py_list z = (tuples, z')
    ∧ Z.of_nat (length tuples) = (top + 1)%Z
    ∧ ∀ j t, tuples !! j = Some t ->
        ∃ wd h r k,
          widths !! j = Some wd ∧ heights !! j = Some h
          ∧ ratios !! j = Some r ∧ kernels !! j = Some k
          ∧ t = [wd; h; r; VInt 0; VTuple [VInt 2; VInt 2]; VInt 10;
                 VInt 80; k; VInt 1].
Proof.
  intros box_sizes w'.
  apply (calibrate_then_expand_new_instance (gmap string value) mapping_load
           (fixed_labels [0; 1; 0]%Z) (World ∅ ∅ ∅ []) w' box_sizes (VInt 5)
           0.1%float 5%Z false 30%Z).
  vm_compute. reflexivity.
Defined.
